(** * Shallow embedding of the taxi CO2 pipeline (clean.py, transform.py, analysis.py)

    The SQL that the Python scripts send to DuckDB is embedded as Rocq
    functions over lists of rows.  SQL NULL is [None]; a nullable boolean
    (three-valued logic) is [option bool] and a WHERE clause keeps a row
    only when its condition is [Some true].  Floating-point columns
    (trip_distance, co2_grams_per_mile, trip_co2_kgs, avg_mph) are modelled
    by rationals [Q]; timestamps are their civil fields, converted to epoch
    seconds where the SQL calls [date_diff].  The database is a [gmap] from
    table names to tables. *)

From Stdlib Require Import QArith ZArith String Ascii Bool Sorting.Permutation Sorting.Sorted.
From stdpp Require Import base gmap strings list pretty.

Open Scope Z_scope.

(* ------------------------------------------------------------------ *)
(** ** SQL three-valued logic *)

Definition sql_and (a b : option bool) : option bool :=
  match a, b with
  | Some false, _ | _, Some false => Some false
  | Some true, Some true => Some true
  | _, _ => None
  end.

Definition sql_or (a b : option bool) : option bool :=
  match a, b with
  | Some true, _ | _, Some true => Some true
  | Some false, Some false => Some false
  | _, _ => None
  end.

Definition is_null {A} (x : option A) : option bool :=
  Some (match x with None => true | Some _ => false end).

Definition is_not_null {A} (x : option A) : bool :=
  match x with None => false | Some _ => true end.

(** A binary SQL operator: NULL if either side is NULL. *)
Definition lift2 {A B C} (f : A -> B -> C) (x : option A) (y : option B) : option C :=
  match x, y with Some a, Some b => Some (f a b) | _, _ => None end.

(** WHERE keeps a row only when the condition is TRUE (not FALSE, not NULL). *)
Definition sql_true (b : option bool) : bool :=
  match b with Some true => true | _ => false end.

(* ------------------------------------------------------------------ *)
(** ** Timestamps (DuckDB TIMESTAMP, timezone-naive, whole seconds) *)

Record timestamp := mkTs {
  ts_year : Z; ts_month : Z; ts_day : Z;
  ts_hour : Z; ts_minute : Z; ts_second : Z }.

Definition timestamp_eq_dec (a b : timestamp) : {a = b} + {a <> b}.
Proof. decide equality; apply Z.eq_dec. Defined.

(** Days since 1970-01-01 of a proleptic Gregorian date. *)
Definition days_from_civil (y m d : Z) : Z :=
  let y' := if m <=? 2 then y - 1 else y in
  let era := y' / 400 in
  let yoe := y' - era * 400 in
  let mp := (m + 9) mod 12 in
  let doy := (153 * mp + 2) / 5 + d - 1 in
  let doe := yoe * 365 + yoe / 4 - yoe / 100 + doy in
  era * 146097 + doe - 719468.

Definition ts_days (t : timestamp) : Z := days_from_civil (ts_year t) (ts_month t) (ts_day t).

Definition epoch_seconds (t : timestamp) : Z :=
  ts_days t * 86400 + ts_hour t * 3600 + ts_minute t * 60 + ts_second t.

(** [date_diff('second', a, b)] *)
Definition date_diff_second (a b : timestamp) : Z := epoch_seconds b - epoch_seconds a.

(** [EXTRACT('dow' ...)]: Sunday = 0 .. Saturday = 6 (1970-01-01 was a Thursday). *)
Definition extract_dow (t : timestamp) : Z := (ts_days t + 4) mod 7.

Definition extract_hour (t : timestamp) : Z := ts_hour t.
Definition extract_month (t : timestamp) : Z := ts_month t.
Definition extract_year (t : timestamp) : Z := ts_year t.

(** [EXTRACT('week' ...)]: ISO-8601 week number. *)
Definition iso_p (y : Z) : Z := (y + y / 4 - y / 100 + y / 400) mod 7.
Definition iso_weeks_in_year (y : Z) : Z :=
  if (iso_p y =? 4) || (iso_p (y - 1) =? 3) then 53 else 52.

Definition extract_week (t : timestamp) : Z :=
  let doy := ts_days t - days_from_civil (ts_year t) 1 1 + 1 in
  let dow := extract_dow t in
  let isow := if dow =? 0 then 7 else dow in
  let w := (doy - isow + 10) / 7 in
  if w <? 1 then iso_weeks_in_year (ts_year t - 1)
  else if iso_weeks_in_year (ts_year t) <? w then 1
  else w.

(* ------------------------------------------------------------------ *)
(** ** Rows *)

(** A raw or cleaned trip row: the six columns that load.py writes and that
    clean.py keeps. *)
Record trip_row := mkTrip {
  cab_type : option string;
  vendor_id : option Z;
  pickup_datetime : option timestamp;
  dropoff_datetime : option timestamp;
  passenger_count : option Z;
  trip_distance : option Q }.

(** SQL "not distinct" equality, as used by SELECT DISTINCT: NULL matches
    NULL, numbers compare by value. *)
Definition opt_eqb {A} (eqb : A -> A -> bool) (x y : option A) : bool :=
  match x, y with
  | None, None => true
  | Some a, Some b => eqb a b
  | _, _ => false
  end.

Definition ts_eqb (a b : timestamp) : bool :=
  if timestamp_eq_dec a b then true else false.

Definition trip_row_eqb (r s : trip_row) : bool :=
  opt_eqb String.eqb (cab_type r) (cab_type s)
  && opt_eqb Z.eqb (vendor_id r) (vendor_id s)
  && opt_eqb ts_eqb (pickup_datetime r) (pickup_datetime s)
  && opt_eqb ts_eqb (dropoff_datetime r) (dropoff_datetime s)
  && opt_eqb Z.eqb (passenger_count r) (passenger_count s)
  && opt_eqb Qeq_bool (trip_distance r) (trip_distance s).

(** SELECT DISTINCT: one representative per class of not-distinct rows.
    The SQL output order is unspecified; the model keeps first occurrences. *)
Fixpoint distinct_by {A} (eqb : A -> A -> bool) (l : list A) : list A :=
  match l with
  | [] => []
  | x :: xs => x :: List.filter (fun y => negb (eqb x y)) (distinct_by eqb xs)
  end.

(* ------------------------------------------------------------------ *)
(** ** clean.py *)

Definition MAX_TRIP_SECONDS : Z := 86400.
Definition MAX_TRIP_MILES : Q := 100.

(** Nullable comparisons used in the WHERE clause. *)
Definition q_gt (x : option Q) (c : Q) : option bool := option_map (fun a => negb (Qle_bool a c)) x.
Definition q_le (x : option Q) (c : Q) : option bool := option_map (fun a => Qle_bool a c) x.
Definition z_le (x : option Z) (c : Z) : option bool := option_map (fun a => a <=? c) x.
Definition z_ne (x : option Z) (c : Z) : option bool := option_map (fun a => negb (a =? c)) x.

(** CTE [base]: the six columns plus [duration_seconds]. *)
Definition duration_seconds (r : trip_row) : option Z :=
  lift2 date_diff_second (pickup_datetime r) (dropoff_datetime r).

(** CTE [filtered]: the WHERE clause of [clean_one]. *)
Definition clean_pred (r : trip_row) : option bool :=
  sql_and (sql_and (sql_and
    (sql_or (is_null (passenger_count r)) (z_ne (passenger_count r) 0))
    (q_gt (trip_distance r) 0))
    (q_le (trip_distance r) MAX_TRIP_MILES))
    (z_le (duration_seconds r) MAX_TRIP_SECONDS).

(** The query of [clean_one]: filter, then SELECT DISTINCT on the six columns. *)
Definition clean_query (src : list trip_row) : list trip_row :=
  distinct_by trip_row_eqb (List.filter (fun r => sql_true (clean_pred r)) src).

(* ------------------------------------------------------------------ *)
(** ** Enriched rows and the emission-factor table *)

Record enriched_row := mkEnriched {
  e_cab_type : option string;
  e_vendor_id : option Z;
  e_pickup_datetime : option timestamp;
  e_dropoff_datetime : option timestamp;
  e_passenger_count : option Z;
  e_trip_distance : option Q;
  trip_co2_kgs : option Q;
  avg_mph : option Q;
  hour_of_day : option Z;
  day_of_week : option Z;
  week_of_year : option Z;
  month_of_year : option Z }.

(** A row of [vehicle_emissions]: the category column (when the table has
    one) and the factor. *)
Record emission_row := mkEmission {
  em_taxi_type : option string;
  co2_grams_per_mile : option Q }.

(** A DuckDB table: trip rows (raw and cleaned tables), enriched rows
    (transformed tables) or the emission lookup with its column names. *)
Inductive table :=
| TTrips (rows : list trip_row)
| TEnriched (rows : list enriched_row)
| TEmissions (cols : list string) (rows : list emission_row).

Definition trip_cols : list string :=
  ["cab_type"; "vendor_id"; "pickup_datetime"; "dropoff_datetime";
   "passenger_count"; "trip_distance"]%string.

Definition enriched_cols : list string :=
  trip_cols ++ ["trip_co2_kgs"; "avg_mph"; "hour_of_day"; "day_of_week";
                "week_of_year"; "month_of_year"]%string.

Definition table_columns (t : table) : list string :=
  match t with
  | TTrips _ => trip_cols
  | TEnriched _ => enriched_cols
  | TEmissions cols _ => cols
  end.

Abbreviation db := (gmap string table).

Inductive error :=
| ETableMissing (name : string)
| EColumnMissing (msg : string)
| ESqlError (msg : string).

Inductive result (A : Type) :=
| Ok (a : A)
| Err (e : error).
Arguments Ok {A} a.
Arguments Err {A} e.

Definition bind {A B} (m : result A) (k : A -> result B) : result B :=
  match m with Ok a => k a | Err e => Err e end.

(** The six trip columns of an enriched row. *)
Definition trip_of_enriched (e : enriched_row) : trip_row :=
  mkTrip (e_cab_type e) (e_vendor_id e) (e_pickup_datetime e)
    (e_dropoff_datetime e) (e_passenger_count e) (e_trip_distance e).

(** [table_exists] *)
Definition table_exists (con : db) (name : string) : bool := is_not_null (con !! name).

(** [SELECT <six trip columns> FROM name]: trip and enriched tables both have them. *)
Definition select_trip_cols (con : db) (name : string) : result (list trip_row) :=
  match con !! name with
  | None => Err (ESqlError ("Table does not exist: " ++ name))
  | Some (TTrips rows) => Ok rows
  | Some (TEnriched rows) => Ok (map trip_of_enriched rows)
  | Some (TEmissions _ _) => Err (ESqlError ("Binder error: " ++ name))
  end%string.

(** [clean_one con src dst]: DROP dst, then CREATE dst AS the cleaning query. *)
Definition clean_one (con : db) (src dst : string) : result db :=
  let con1 := delete dst con in
  bind (select_trip_cols con1 src) (fun rows =>
  Ok (<[dst := TTrips (clean_query rows)]> con1)).

(* ------------------------------------------------------------------ *)
(** ** transform.py *)

Definition SECONDS_PER_HOUR : Q := 3600.

(** SQL [lower] on ASCII letters. *)
Definition ascii_lower (c : ascii) : ascii :=
  let n := nat_of_ascii c in
  if (65 <=? n)%nat && (n <=? 90)%nat then ascii_of_nat (n + 32) else c.

Fixpoint lower (s : string) : string :=
  match s with
  | EmptyString => EmptyString
  | String c s' => String (ascii_lower c) (lower s')
  end.

Definition str_mem (x : string) (l : list string) : bool := existsb (String.eqb x) l.

(** [get_emissions_cols]: lowercase column names of vehicle_emissions
    (empty when the table does not exist). *)
Definition get_emissions_cols (con : db) : list string :=
  match con !! "vehicle_emissions"%string with
  | Some t => map lower (table_columns t)
  | None => []
  end.

(** The rows of [SELECT * FROM vehicle_emissions]. *)
Definition emission_rows (con : db) : list emission_row :=
  match con !! "vehicle_emissions"%string with
  | Some (TEmissions _ rows) => rows
  | _ => []
  end.

(** [build_emissions_cte con taxi_type]: the rows of CTE [ve].  LIMIT 1
    without ORDER BY returns one matching row; the model takes the first. *)
Definition build_emissions_cte (con : db) (taxi_type : string) : result (list (option Q)) :=
  let cols := get_emissions_cols con in
  if negb (str_mem "co2_grams_per_mile" cols) then
    Err (EColumnMissing "vehicle_emissions must have column 'co2_grams_per_mile'.")
  else if str_mem "taxi_type" cols then
    Ok (map co2_grams_per_mile
          (firstn 1 (List.filter
             (fun e => sql_true (option_map (fun s => String.eqb (lower s) taxi_type)
                                            (em_taxi_type e)))
             (emission_rows con))))
  else
    Ok (map co2_grams_per_mile (firstn 1 (emission_rows con))).

(** One output row of the transform query for base row [b] and factor [g]. *)
Definition enrich_row (b : trip_row) (g : option Q) : enriched_row :=
  let dur : option Q := option_map inject_Z (duration_seconds b) in
  mkEnriched (cab_type b) (vendor_id b) (pickup_datetime b) (dropoff_datetime b)
    (passenger_count b) (trip_distance b)
    (lift2 (fun d f => (d * f) / 1000)%Q (trip_distance b) g)
    (if sql_true (option_map (fun s => negb (Qle_bool s 0)) dur)
     then lift2 (fun d s => d / (s / SECONDS_PER_HOUR))%Q (trip_distance b) dur
     else None)
    (option_map extract_hour (pickup_datetime b))
    (option_map extract_dow (pickup_datetime b))
    (option_map extract_week (pickup_datetime b))
    (option_map extract_month (pickup_datetime b)).

(** [FROM base b CROSS JOIN ve]. *)
Definition transform_query (base : list trip_row) (ve : list (option Q)) : list enriched_row :=
  flat_map (fun b => map (fun g => enrich_row b g) ve) base.

(** [transform_one con src_clean dst_transformed taxi_type]. *)
Definition transform_one (con : db) (src_clean dst_transformed taxi_type : string) : result db :=
  if negb (table_exists con "vehicle_emissions") then
    Err (ETableMissing "vehicle_emissions")
  else if negb (table_exists con src_clean) then
    Err (ETableMissing src_clean)
  else
    let con1 := delete dst_transformed con in
    bind (build_emissions_cte con1 taxi_type) (fun ve =>
    bind (select_trip_cols con1 src_clean) (fun base =>
    let con2 := <[dst_transformed := TEnriched (transform_query base ve)]> con1 in
    let cols := match con2 !! dst_transformed with
                | Some t => map lower (table_columns t) | None => [] end in
    if forallb (fun c => str_mem c cols) enriched_cols then Ok con2
    else Err (EColumnMissing dst_transformed))).

Definition YEARS : list Z := map Z.of_nat (seq 2015 10).
Definition CABS : list string := ["yellow"; "green"]%string.

(** [discover_cleaned_tables]: (src_clean, dst_transformed, taxi_type). *)
Definition discover_cleaned_tables (con : db) : list (string * string * string) :=
  flat_map (fun cab =>
    flat_map (fun y =>
      let src := (cab ++ "_trips_" ++ pretty y ++ "_clean")%string in
      if table_exists con src
      then [(src, (cab ++ "_trips_" ++ pretty y ++ "_transformed")%string, cab)]
      else []) YEARS) CABS.

(* ------------------------------------------------------------------ *)
(** ** Union tables (build_unions in clean.py and transform.py) *)

Fixpoint select_union_all {A} (get : table -> option (list A)) (con : db)
    (tables : list string) : result (list A) :=
  match tables with
  | [] => Ok []
  | t :: ts =>
      match con !! t with
      | None => Err (ESqlError ("Table does not exist: " ++ t)%string)
      | Some tb =>
          match get tb with
          | None => Err (ESqlError "UNION ALL column mismatch")
          | Some rows => bind (select_union_all get con ts) (fun rest => Ok (rows ++ rest))
          end
      end
  end.

(** [make_union_table name tables]: DROP name; if tables is empty, stop
    (the view is absent); else CREATE name AS the UNION ALL of the tables. *)
Definition make_union_table {A} (get : table -> option (list A)) (mk : list A -> table)
    (name : string) (tables : list string) (con : db) : result db :=
  let con1 := delete name con in
  match tables with
  | [] => Ok con1
  | _ => bind (select_union_all get con1 tables) (fun rows => Ok (<[name := mk rows]> con1))
  end.

Definition get_enriched (t : table) : option (list enriched_row) :=
  match t with TEnriched rows => Some rows | _ => None end.

Definition get_trips (t : table) : option (list trip_row) :=
  match t with TTrips rows => Some rows | _ => None end.

(** transform.py [build_unions]. *)
Definition transform_build_unions (con : db) (transformed_tables : list string) : result db :=
  let yellow_t := List.filter (String.prefix "yellow_") transformed_tables in
  let green_t := List.filter (String.prefix "green_") transformed_tables in
  bind (make_union_table get_enriched TEnriched "yellow_trips_transformed_all" yellow_t con) (fun con1 =>
  bind (make_union_table get_enriched TEnriched "green_trips_transformed_all" green_t con1) (fun con2 =>
  make_union_table get_enriched TEnriched "all_trips_transformed_2015_2024" (yellow_t ++ green_t) con2)).

(** clean.py [build_unions]: the pairs are (src, dst) and the prefix test is on src. *)
Definition clean_build_unions (con : db) (cleaned_pairs : list (string * string)) : result db :=
  let yellow_clean := map snd (List.filter (fun p => String.prefix "yellow_" (fst p)) cleaned_pairs) in
  let green_clean := map snd (List.filter (fun p => String.prefix "green_" (fst p)) cleaned_pairs) in
  bind (make_union_table get_trips TTrips "yellow_trips_clean_all" yellow_clean con) (fun con1 =>
  bind (make_union_table get_trips TTrips "green_trips_clean_all" green_clean con1) (fun con2 =>
  make_union_table get_trips TTrips "all_trips_clean_2015_2024" (yellow_clean ++ green_clean) con2)).

(* ------------------------------------------------------------------ *)
(** ** analysis.py *)

(** Insertion sort, for the ORDER BY of queries whose sort keys are distinct. *)
Fixpoint insert_by {A} (leb : A -> A -> bool) (x : A) (l : list A) : list A :=
  match l with
  | [] => [x]
  | y :: ys => if leb x y then x :: y :: ys else y :: insert_by leb x ys
  end.

Fixpoint sort_by {A} (leb : A -> A -> bool) (l : list A) : list A :=
  match l with
  | [] => []
  | x :: xs => insert_by leb x (sort_by leb xs)
  end.

Definition Qsum (l : list Q) : Q := fold_right Qplus 0%Q l.

(** GROUP BY key, aggregate each group, ORDER BY key. *)
Definition group_by {K} (keqb : K -> K -> bool) (kleb : K -> K -> bool)
    (agg : list Q -> Q) (pairs : list (K * Q)) : list (K * Q) :=
  map (fun k => (k, agg (map snd (List.filter (fun p => keqb k (fst p)) pairs))))
      (sort_by kleb (distinct_by keqb (map fst pairs))).

(** AVG over a non-empty group. *)
Definition Qavg (l : list Q) : Q := Qsum l / inject_Z (Z.of_nat (length l)).

(** [get_max_trip]: projected columns of the result. *)
Record max_trip_row := mkMaxTrip {
  m_trip_co2_kgs : option Q;
  m_trip_distance : option Q;
  m_pickup_datetime : option timestamp;
  m_dropoff_datetime : option timestamp;
  m_cab_type : option string;
  m_vendor_id : option Z }.

Definition project_max (e : enriched_row) : max_trip_row :=
  mkMaxTrip (trip_co2_kgs e) (e_trip_distance e) (e_pickup_datetime e)
    (e_dropoff_datetime e) (e_cab_type e) (e_vendor_id e).

Definition co2_key (e : enriched_row) : Q := default 0%Q (trip_co2_kgs e).

(** [WHERE trip_co2_kgs IS NOT NULL ORDER BY trip_co2_kgs DESC LIMIT 1].
    SQL fixes no order among rows with equal keys, so the query is a
    relation: [out] is a possible result when some ordering of the non-null
    rows, descending by the key, has [out] as its first row. *)
Definition get_max_trip (view : list enriched_row) (out : list max_trip_row) : Prop :=
  exists ordered : list enriched_row,
    Permutation (List.filter (fun e => is_not_null (trip_co2_kgs e)) view) ordered
    /\ Sorted (fun a b => (co2_key b <= co2_key a)%Q) ordered
    /\ out = map project_max (firstn 1 ordered).

(** The bucket columns passed to [avg_by_bucket]. *)
Inductive bucket_col := HourOfDay | DayOfWeek | WeekOfYear | MonthOfYear.

Definition bucket_value (c : bucket_col) (e : enriched_row) : option Z :=
  match c with
  | HourOfDay => hour_of_day e
  | DayOfWeek => day_of_week e
  | WeekOfYear => week_of_year e
  | MonthOfYear => month_of_year e
  end.

(** [avg_by_bucket con table bucket_col]: (bucket, avg_co2) rows, by bucket. *)
Definition avg_by_bucket (view : list enriched_row) (c : bucket_col) : list (Z * Q) :=
  group_by Z.eqb Z.leb Qavg
    (omap (fun e => match bucket_value c e, trip_co2_kgs e with
                    | Some k, Some v => Some (k, v)
                    | _, _ => None
                    end) view).

(** Group key of [monthly_totals_full]: date_trunc('month', pickup) with its
    year and month, NULL when pickup_datetime is NULL. *)
Definition ym_key (e : enriched_row) : option (Z * Z) :=
  option_map (fun t => (extract_year t, extract_month t)) (e_pickup_datetime e).

Definition ym_eqb (a b : option (Z * Z)) : bool :=
  opt_eqb (fun x y => (fst x =? fst y) && (snd x =? snd y)) a b.

(** ORDER BY ym (ascending, NULLS LAST). *)
Definition ym_leb (a b : option (Z * Z)) : bool :=
  match a, b with
  | Some (y1, m1), Some (y2, m2) => (y1 <? y2) || ((y1 =? y2) && (m1 <=? m2))
  | Some _, None => true
  | None, Some _ => false
  | None, None => true
  end.

(** [monthly_totals_full con table]: (ym, total_co2) rows, by ym. *)
Definition monthly_totals_full (view : list enriched_row) : list (option (Z * Z) * Q) :=
  group_by ym_eqb ym_leb Qsum
    (omap (fun e => match trip_co2_kgs e with
                    | Some v => Some (ym_key e, v)
                    | None => None
                    end) view).

(* ------------------------------------------------------------------ *)
(** ** clean.py: verification, summary, discovery and the main loop *)

(** The script's runs leave the database in a state even when a statement
    raises; the functions below that end in [_st] return that state with
    the error, [None] when nothing was raised. *)
Definition step_bind (r : db * option error) (k : db -> db * option error) : db * option error :=
  match r with
  | (c, None) => k c
  | (c, Some e) => (c, Some e)
  end.

(** [SELECT COUNT( * ) FROM name]. *)
Definition table_count (t : table) : Z :=
  Z.of_nat (match t with
            | TTrips rows => length rows
            | TEnriched rows => length rows
            | TEmissions _ rows => length rows
            end).

Definition count_rows (con : db) (name : string) : result Z :=
  match con !! name with
  | Some t => Ok (table_count t)
  | None => Err (ESqlError ("Table does not exist: " ++ name)%string)
  end.

(** [SELECT COUNT( * ) FROM table WHERE cond]. *)
Definition count_where {A} (cond : A -> option bool) (rows : list A) : Z :=
  Z.of_nat (length (List.filter (fun r => sql_true (cond r)) rows)).

(** SELECT DISTINCT * on an enriched table compares all twelve columns. *)
Definition enriched_row_eqb (a b : enriched_row) : bool :=
  trip_row_eqb (trip_of_enriched a) (trip_of_enriched b)
  && opt_eqb Qeq_bool (trip_co2_kgs a) (trip_co2_kgs b)
  && opt_eqb Qeq_bool (avg_mph a) (avg_mph b)
  && opt_eqb Z.eqb (hour_of_day a) (hour_of_day b)
  && opt_eqb Z.eqb (day_of_week a) (day_of_week b)
  && opt_eqb Z.eqb (week_of_year a) (week_of_year b)
  && opt_eqb Z.eqb (month_of_year a) (month_of_year b).

(** The six figures [verify_clean] prints. *)
Record verify_report := mkVerify {
  v_total : Z; v_dupes : Z; v_zero_pass : Z;
  v_zero_miles : Z; v_over_100 : Z; v_over_day : Z }.

(** The counting queries of [verify_clean] over the trip columns of a table
    with [total] rows of which [distinct] are distinct. *)
Definition verify_counts (rows : list trip_row) (distinct : Z) : verify_report :=
  let total := Z.of_nat (length rows) in
  mkVerify total (total - distinct)
    (count_where (fun r => option_map (fun p => p =? 0) (passenger_count r)) rows)
    (count_where (fun r => option_map (fun d => Qeq_bool d 0) (trip_distance r)) rows)
    (count_where (fun r => q_gt (trip_distance r) MAX_TRIP_MILES) rows)
    (count_where (fun r => option_map (fun s => MAX_TRIP_SECONDS <? s) (duration_seconds r)) rows).

(** [verify_clean con table]. *)
Definition verify_clean (con : db) (table : string) : result verify_report :=
  match con !! table with
  | None => Err (ESqlError ("Table does not exist: " ++ table))
  | Some (TTrips rows) =>
      Ok (verify_counts rows (Z.of_nat (length (distinct_by trip_row_eqb rows))))
  | Some (TEnriched rows) =>
      Ok (verify_counts (map trip_of_enriched rows)
                        (Z.of_nat (length (distinct_by enriched_row_eqb rows))))
  | Some (TEmissions _ _) => Err (ESqlError ("Binder error: " ++ table))
  end%string.

(** [summarize_before_after con src dst]: the printed Raw, Clean and Removed. *)
Definition summarize_before_after (con : db) (src dst : string) : result (Z * Z * Z) :=
  bind (count_rows con src) (fun raw =>
  bind (count_rows con dst) (fun clean =>
  Ok (raw, clean, raw - clean))).

(** [discover_src_tables]: (src, dst) pairs, yellow years first, then green. *)
Definition discover_src_tables (con : db) : list (string * string) :=
  flat_map (fun cab =>
    flat_map (fun y =>
      let src := (cab ++ "_trips_" ++ pretty y)%string in
      if table_exists con src then [(src, (src ++ "_clean")%string)] else []) YEARS) CABS.

(** The twenty (src, dst) pairs [discover_src_tables] tests, in its order. *)
Definition src_candidates : list (string * string) :=
  flat_map (fun cab =>
    map (fun y =>
      let src := (cab ++ "_trips_" ++ pretty y)%string in (src, (src ++ "_clean")%string)) YEARS) CABS.

(** The twenty worklist items [discover_cleaned_tables] tests, in its order. *)
Definition cleaned_candidates : list (string * string * string) :=
  flat_map (fun cab =>
    map (fun y =>
      ((cab ++ "_trips_" ++ pretty y ++ "_clean")%string,
       (cab ++ "_trips_" ++ pretty y ++ "_transformed")%string, cab)) YEARS) CABS.

(** The dst_transformed of a worklist item. *)
Definition wl_dst (w : string * string * string) : string := snd (fst w).

(** [clean_one] with the state it leaves: the DROP runs before the CREATE,
    which is the statement that can raise. *)
Definition clean_one_st (con : db) (src dst : string) : db * option error :=
  let con1 := delete dst con in
  match select_trip_cols con1 src with
  | Err e => (con1, Some e)
  | Ok rows => (<[dst := TTrips (clean_query rows)]> con1, None)
  end.

(** [make_union_table] with the state it leaves: the DROP runs before the
    CREATE, which is the statement that can raise. *)
Definition make_union_table_st {A} (get : table -> option (list A)) (mk : list A -> table)
    (name : string) (tables : list string) (con : db) : db * option error :=
  let con1 := delete name con in
  match tables with
  | [] => (con1, None)
  | _ =>
      match select_union_all get con1 tables with
      | Err e => (con1, Some e)
      | Ok rows => (<[name := mk rows]> con1, None)
      end
  end.

(** clean.py [build_unions], with the state it leaves. *)
Definition clean_build_unions_st (con : db) (cleaned_pairs : list (string * string)) : db * option error :=
  let yellow_clean := map snd (List.filter (fun p => String.prefix "yellow_" (fst p)) cleaned_pairs) in
  let green_clean := map snd (List.filter (fun p => String.prefix "green_" (fst p)) cleaned_pairs) in
  step_bind (make_union_table_st get_trips TTrips "yellow_trips_clean_all" yellow_clean con) (fun con1 =>
  step_bind (make_union_table_st get_trips TTrips "green_trips_clean_all" green_clean con1) (fun con2 =>
  make_union_table_st get_trips TTrips "all_trips_clean_2015_2024" (yellow_clean ++ green_clean) con2)).

(** The loop of clean.py [main]: clean_one, summarize_before_after and
    verify_clean per pair (the last two only read), appending to
    [cleaned_pairs]; the first exception ends the loop. *)
Fixpoint clean_loop (con : db) (pairs cleaned_pairs : list (string * string))
    : db * option error * list (string * string) :=
  match pairs with
  | [] => (con, None, cleaned_pairs)
  | (src, dst) :: rest =>
      match clean_one_st con src dst with
      | (con1, Some e) => (con1, Some e, cleaned_pairs)
      | (con1, None) =>
          match summarize_before_after con1 src dst with
          | Err e => (con1, Some e, cleaned_pairs)
          | Ok _ =>
              match verify_clean con1 dst with
              | Err e => (con1, Some e, cleaned_pairs)
              | Ok _ => clean_loop con1 rest (cleaned_pairs ++ [(src, dst)])
              end
          end
      end
  end.

(** clean.py [main]: the final state and the exception it caught, if any. *)
Definition clean_main (con : db) : db * option error :=
  match clean_loop con (discover_src_tables con) [] with
  | (con1, Some e, _) => (con1, Some e)
  | (con1, None, []) => (con1, None)
  | (con1, None, cleaned_pairs) => clean_build_unions_st con1 cleaned_pairs
  end.

(* ------------------------------------------------------------------ *)
(** ** transform.py: the main loop *)

(** [transform_one] with the state it leaves: the two existence checks
    raise before the DROP; the lookup and the CREATE raise after it; the
    column check raises after the CREATE. *)
Definition transform_one_st (con : db) (src_clean dst_transformed taxi_type : string)
    : db * option error :=
  if negb (table_exists con "vehicle_emissions") then
    (con, Some (ETableMissing "vehicle_emissions"))
  else if negb (table_exists con src_clean) then
    (con, Some (ETableMissing src_clean))
  else
    let con1 := delete dst_transformed con in
    match build_emissions_cte con1 taxi_type with
    | Err e => (con1, Some e)
    | Ok ve =>
        match select_trip_cols con1 src_clean with
        | Err e => (con1, Some e)
        | Ok base =>
            let con2 := <[dst_transformed := TEnriched (transform_query base ve)]> con1 in
            let cols := match con2 !! dst_transformed with
                        | Some t => map lower (table_columns t) | None => [] end in
            if forallb (fun c => str_mem c cols) enriched_cols then (con2, None)
            else (con2, Some (EColumnMissing dst_transformed))
        end
    end.

(** transform.py [build_unions], with the state it leaves. *)
Definition transform_build_unions_st (con : db) (transformed_tables : list string) : db * option error :=
  let yellow_t := List.filter (String.prefix "yellow_") transformed_tables in
  let green_t := List.filter (String.prefix "green_") transformed_tables in
  step_bind (make_union_table_st get_enriched TEnriched "yellow_trips_transformed_all" yellow_t con) (fun con1 =>
  step_bind (make_union_table_st get_enriched TEnriched "green_trips_transformed_all" green_t con1) (fun con2 =>
  make_union_table_st get_enriched TEnriched "all_trips_transformed_2015_2024" (yellow_t ++ green_t) con2)).

(** The loop of transform.py [main]; the first exception ends it. *)
Fixpoint transform_loop (con : db) (worklist : list (string * string * string))
    (created : list string) : db * option error * list string :=
  match worklist with
  | [] => (con, None, created)
  | (src_clean, dst_transformed, taxi) :: rest =>
      match transform_one_st con src_clean dst_transformed taxi with
      | (con1, Some e) => (con1, Some e, created)
      | (con1, None) => transform_loop con1 rest (created ++ [dst_transformed])
      end
  end.

(** transform.py [main]: the final state and the exception it caught, if any. *)
Definition transform_main (con : db) : db * option error :=
  match discover_cleaned_tables con with
  | [] => (con, None)
  | worklist =>
      match transform_loop con worklist [] with
      | (con1, Some e, _) => (con1, Some e)
      | (con1, None, created) => transform_build_unions_st con1 created
      end
  end.

(* ------------------------------------------------------------------ *)
(** ** analysis.py: the pandas side *)

(** pandas [idxmax] / [idxmin] on a column: the first row holding the
    extreme value ([better a b] says that [a] beats [b] strictly). *)
Definition first_extreme {A} (better : Q -> Q -> bool) (df : list (A * Q)) : option (A * Q) :=
  match df with
  | [] => None
  | x :: xs => Some (fold_left (fun best y => if better (snd y) (snd best) then y else best) xs x)
  end.

Definition idxmax {A} (df : list (A * Q)) : option (A * Q) :=
  first_extreme (fun a b => negb (Qle_bool a b)) df.

Definition idxmin {A} (df : list (A * Q)) : option (A * Q) :=
  first_extreme (fun a b => negb (Qle_bool b a)) df.

(** [heaviest_lightest_month_totals df] on the rows of [monthly_totals_full]. *)
Definition heaviest_lightest_month_totals (df : list (option (Z * Z) * Q))
    : option (option (Z * Z) * Q) * option (option (Z * Z) * Q) :=
  match df with
  | [] => (None, None)
  | _ => (idxmax df, idxmin df)
  end.

(** [DAY_NAMES] and [MONTH_NAMES], and pandas [Series.map] through them
    ([None] is NaN, for a bucket the dictionary does not have). *)
Definition DAY_NAMES : list (Z * string) :=
  [(0, "Sun"); (1, "Mon"); (2, "Tue"); (3, "Wed"); (4, "Thu"); (5, "Fri"); (6, "Sat")]%string.

Definition MONTH_NAMES : list (Z * string) :=
  [(1, "Jan"); (2, "Feb"); (3, "Mar"); (4, "Apr"); (5, "May"); (6, "Jun");
   (7, "Jul"); (8, "Aug"); (9, "Sep"); (10, "Oct"); (11, "Nov"); (12, "Dec")]%string.

Definition name_of (names : list (Z * string)) (k : Z) : option string :=
  option_map snd (List.find (fun p => fst p =? k) names).

(** The hour table of [analyze_cab]: report_hour = (bucket % 24) + 1. *)
Definition hour_report (view : list enriched_row) : list (Z * Q) :=
  map (fun p => (fst p mod 24 + 1, snd p)) (avg_by_bucket view HourOfDay).

(** [to_yearly] of [plot_yearly_10yr]: rows with year in 2015..2024 (a NULL
    year fails both comparisons), summed per year, sorted by year. *)
Definition to_yearly (df : option (list (option (Z * Z) * Q))) : list (Z * Q) :=
  match df with
  | None => []
  | Some rows =>
      group_by Z.eqb Z.leb Qsum
        (omap (fun p => match fst p with
                        | Some (y, _) => if (2015 <=? y) && (y <=? 2024) then Some (y, snd p) else None
                        | None => None
                        end) rows)
  end.

(* ------------------------------------------------------------------ *)
(** ** load.py *)

(** The five columns [load_year_cab] reads from a monthly file: VendorID,
    the pickup and dropoff columns (tpep_ for yellow, lpep_ for green),
    passenger_count and trip_distance. *)
Record parquet_row := mkParquet {
  pq_vendor_id : option Z;
  pq_pickup_datetime : option timestamp;
  pq_dropoff_datetime : option timestamp;
  pq_passenger_count : option Z;
  pq_trip_distance : option Q }.

Definition MONTHS : list Z := map Z.of_nat (seq 1 12).

(** [{month:02d}] for the months 1..12. *)
Definition pad2 (m : Z) : string := if m <? 10 then ("0" ++ pretty m)%string else pretty m.

Definition parquet_url (cab : string) (year m : Z) : string :=
  ("https://d37ci6vzurychx.cloudfront.net/trip-data/" ++ cab ++ "_tripdata_"
   ++ pretty year ++ "-" ++ pad2 m ++ ".parquet")%string.

(** The SELECT of [load_year_cab]: the cab literal and the five columns. *)
Definition load_row (cab : string) (p : parquet_row) : trip_row :=
  mkTrip (Some cab) (pq_vendor_id p) (pq_pickup_datetime p) (pq_dropoff_datetime p)
    (pq_passenger_count p) (pq_trip_distance p).

(** The month loop of [load_year_cab]: CREATE from the first month, INSERT
    the others.  [fetch url] is [read_parquet(url)]: the rows, or [None] when
    the download or the read fails. *)
Fixpoint load_months (fetch : string -> option (list parquet_row)) (cab : string) (year : Z)
    (table : string) (months : list Z) (first_done : bool) (con : db) : db * option error :=
  match months with
  | [] => (con, None)
  | m :: ms =>
      let url := parquet_url cab year m in
      match fetch url with
      | None => (con, Some (ESqlError ("IO Error: " ++ url)%string))
      | Some prows =>
          let rows := map (load_row cab) prows in
          if first_done then
            match con !! table with
            | Some (TTrips old) =>
                load_months fetch cab year table ms true (<[table := TTrips (old ++ rows)]> con)
            | _ => (con, Some (ESqlError ("Table does not exist: " ++ table)%string))
            end
          else load_months fetch cab year table ms true (<[table := TTrips rows]> con)
      end
  end.

(** [load_year_cab con year cab]: the state and the returned (table, cnt). *)
Definition load_year_cab (fetch : string -> option (list parquet_row)) (con : db)
    (year : Z) (cab : string) : db * result (string * Z) :=
  if negb (str_mem cab ["yellow"; "green"]%string) then (con, Err (ESqlError "AssertionError"))
  else
    let table := (cab ++ "_trips_" ++ pretty year)%string in
    match load_months fetch cab year table MONTHS false (delete table con) with
    | (con1, Some e) => (con1, Err e)
    | (con1, None) =>
        match count_rows con1 table with
        | Ok cnt => (con1, Ok (table, cnt))
        | Err e => (con1, Err e)
        end
    end.

(** One [for y in YEARS] loop of [load_parquet_files], summing the counts. *)
Fixpoint load_years (fetch : string -> option (list parquet_row)) (cab : string)
    (years : list Z) (total : Z) (con : db) : db * result Z :=
  match years with
  | [] => (con, Ok total)
  | y :: ys =>
      match load_year_cab fetch con y cab with
      | (con1, Err e) => (con1, Err e)
      | (con1, Ok (_, cnt)) => load_years fetch cab ys (total + cnt) con1
      end
  end.

(** [load_parquet_files]: yellow years, green years, then vehicle_emissions
    from the CSV ([csv] is its header and rows, [None] when the file is
    missing); the first exception ends the run. *)
Definition load_parquet_files (fetch : string -> option (list parquet_row))
    (csv : option (list string * list emission_row)) (con : db) : db * option error :=
  match load_years fetch "yellow" YEARS 0 con with
  | (con1, Err e) => (con1, Some e)
  | (con1, Ok _) =>
      match load_years fetch "green" YEARS 0 con1 with
      | (con2, Err e) => (con2, Some e)
      | (con2, Ok _) =>
          match csv with
          | None => (con2, Some (ESqlError "FileNotFoundError: Missing data/vehicle_emissions.csv"))
          | Some (cols, rows) =>
              (<["vehicle_emissions" := TEmissions cols rows]> (delete "vehicle_emissions" con2), None)
          end
      end
  end.

(* ------------------------------------------------------------------ *)
(** ** Stated properties *)

(** The row-level invariant of cleaned rows as the code enforces it. *)
Definition clean_row_ok (r : trip_row) : Prop :=
  (exists d, trip_distance r = Some d /\ (0 < d)%Q /\ (d <= 100)%Q)
  /\ (exists s, duration_seconds r = Some s /\ s <= 86400)
  /\ (passenger_count r = None \/ exists p, passenger_count r = Some p /\ p <> 0).

(** The table-level invariant: every row satisfies [clean_row_ok] and no two
    rows are field-wise identical. *)
Definition clean_table_ok (rows : list trip_row) : Prop :=
  (forall r, In r rows -> clean_row_ok r)
  /\ ForallOrdPairs (fun a b => trip_row_eqb a b = false) rows.

(** The rows a union reads from table [t]. *)
Definition rows_in {A} (get : table -> option (list A)) (con : db) (t : string) : list A :=
  match con !! t with Some tb => default [] (get tb) | None => [] end.

(** A partition table that a union can read. *)
Definition readable {A} (get : table -> option (list A)) (con : db) (t : string) : Prop :=
  exists tb rows, con !! t = Some tb /\ get tb = Some rows.

Definition union_names_transform : list string :=
  ["yellow_trips_transformed_all"; "green_trips_transformed_all";
   "all_trips_transformed_2015_2024"]%string.

Definition union_names_clean : list string :=
  ["yellow_trips_clean_all"; "green_trips_clean_all"; "all_trips_clean_2015_2024"]%string.

(** Whether a script step finished without raising. *)
Definition is_ok {A} (r : result A) : bool := match r with Ok _ => true | Err _ => false end.

(* ------------------------------------------------------------------ *)
(** ** Concrete inputs *)

Definition ts_a : timestamp := mkTs 2015 1 10 8 0 0.
Definition ts_b : timestamp := mkTs 2015 1 10 9 0 0.
Definition ts_c : timestamp := mkTs 2015 1 10 8 1 40.
Definition ts_mar : timestamp := mkTs 2015 3 2 17 30 0.

Definition yellow_trip (d : Q) (pickup dropoff : timestamp) : trip_row :=
  mkTrip (Some "yellow"%string) (Some 1) (Some pickup) (Some dropoff) (Some 1) (Some d).

(** The raw partition of the spec's filter scenario. *)
Definition raw_scenario : list trip_row :=
  [yellow_trip 10 ts_a ts_b; yellow_trip 10 ts_a ts_b;
   yellow_trip 0 ts_a ts_c; yellow_trip 150 ts_a ts_c].

(** A trip whose dropoff time equals its pickup time. *)
Definition zero_duration_trip : trip_row := yellow_trip 5 ts_a ts_a.

(** A factor table with a category column. *)
Definition factors_by_type : table :=
  TEmissions ["taxi_type"; "co2_grams_per_mile"]%string
    [mkEmission (Some "Yellow"%string) (Some 400%Q);
     mkEmission (Some "green"%string) (Some 300%Q)].

(** A factor table with a category column and no row for yellow cabs. *)
Definition factors_green_only : table :=
  TEmissions ["taxi_type"; "co2_grams_per_mile"]%string
    [mkEmission (Some "green"%string) (Some 300%Q)].

(** A factor table with a category column and two rows for yellow cabs. *)
Definition factors_two_yellow : table :=
  TEmissions ["taxi_type"; "co2_grams_per_mile"]%string
    [mkEmission (Some "yellow"%string) (Some 400%Q);
     mkEmission (Some "YELLOW"%string) (Some 250%Q)].

Definition db_with (factors : table) : db :=
  <["vehicle_emissions" := factors]>
  (<["yellow_trips_2015_clean" := TTrips [yellow_trip 10 ts_a ts_b; zero_duration_trip]]>
   (<["yellow_trips_2015" := TTrips raw_scenario]> ∅)).

Definition enriched_at (co2 : Q) (vendor : Z) (t : timestamp) : enriched_row :=
  mkEnriched (Some "yellow"%string) (Some vendor) (Some t) (Some t) (Some 1) (Some 1%Q)
    (Some co2) None (Some (extract_hour t)) (Some (extract_dow t))
    (Some (extract_week t)) (Some (extract_month t)).

(** A view whose trips fall in January and March 2015 only. *)
Definition view_jan_mar : list enriched_row :=
  [enriched_at 2 1 ts_a; enriched_at 3 2 ts_mar; enriched_at 4 1 ts_b].

(** Two enriched and two cleaned partitions, one per cab type. *)
Definition db_partitions : db :=
  <["yellow_trips_2015_transformed" := TEnriched [enriched_at 2 1 ts_a; enriched_at 2 1 ts_a]]>
  (<["green_trips_2016_transformed" := TEnriched [enriched_at 3 2 ts_mar]]>
   (<["yellow_trips_2015_clean" := TTrips [yellow_trip 10 ts_a ts_b]]>
    (<["green_trips_2016_clean" := TTrips [yellow_trip 10 ts_a ts_b]]> ∅))).

Definition transformed_tables_ex : list string :=
  ["green_trips_2016_transformed"; "yellow_trips_2015_transformed"]%string.

Definition cleaned_pairs_ex : list (string * string) :=
  [("green_trips_2016", "green_trips_2016_clean");
   ("yellow_trips_2015", "yellow_trips_2015_clean")]%string.

(** The spec's extremal scenario: CO2 values 5.0, 5.0 and 3.2. *)
Definition view_ties : list enriched_row :=
  [enriched_at 5 1 ts_a; enriched_at 5 2 ts_b; enriched_at (32 # 10) 1 ts_c].

(* ================================================================== *)
(** * Properties *)

(** ** Generic list lemmas *)

Lemma in_distinct_by {A} (eqb : A -> A -> bool) (l : list A) (x : A) :
  In x (distinct_by eqb l) -> In x l.
Proof.
  induction l as [|a l IH]; simpl; [tauto|].
  intros [->|Hx]; [now left|].
  apply filter_In in Hx as [Hx _]. right. now apply IH.
Qed.

Lemma ForallOrdPairs_filter {A} (R : A -> A -> Prop) (f : A -> bool) (l : list A) :
  ForallOrdPairs R l -> ForallOrdPairs R (List.filter f l).
Proof.
  induction 1 as [|a l Ha Hl IH]; simpl; [constructor|].
  destruct (f a); [|exact IH].
  constructor; [|exact IH].
  apply List.Forall_forall. intros y Hy. apply filter_In in Hy as [Hy _].
  rewrite List.Forall_forall in Ha. now apply Ha.
Qed.

Lemma distinct_by_pairwise {A} (eqb : A -> A -> bool) (l : list A) :
  ForallOrdPairs (fun a b => eqb a b = false) (distinct_by eqb l).
Proof.
  induction l as [|a l IH]; simpl; constructor.
  - apply List.Forall_forall. intros y Hy. apply filter_In in Hy as [_ Hy].
    now apply negb_true_iff.
  - now apply ForallOrdPairs_filter.
Qed.

(** Where [eqb] decides equality, [distinct_by] keeps every value once. *)
Lemma in_distinct_by_iff {A} (eqb : A -> A -> bool)
    (Heqb : forall a b, eqb a b = true <-> a = b) (l : list A) (x : A) :
  In x (distinct_by eqb l) <-> In x l.
Proof.
  split; [apply in_distinct_by|].
  induction l as [|a l IH]; simpl; [tauto|].
  intros [->|Hx]; [now left|].
  destruct (eqb a x) eqn:E.
  - left. now apply Heqb.
  - right. apply filter_In. split; [now apply IH|]. now rewrite E.
Qed.

Lemma distinct_by_NoDup {A} (eqb : A -> A -> bool)
    (Heqb : forall a b, eqb a b = true <-> a = b) (l : list A) :
  List.NoDup (distinct_by eqb l).
Proof.
  generalize (distinct_by_pairwise eqb l).
  induction 1 as [|a l' Ha _ IH]; constructor; [|exact IH].
  intros Hin. rewrite List.Forall_forall in Ha. specialize (Ha a Hin).
  assert (eqb a a = true) by now apply Heqb. congruence.
Qed.

Lemma insert_by_perm {A} (leb : A -> A -> bool) (x : A) (l : list A) :
  Permutation (insert_by leb x l) (x :: l).
Proof.
  induction l as [|y l IH]; simpl; [reflexivity|].
  destruct (leb x y); [reflexivity|].
  rewrite IH. apply perm_swap.
Qed.

Lemma sort_by_perm {A} (leb : A -> A -> bool) (l : list A) :
  Permutation (sort_by leb l) l.
Proof.
  induction l as [|x l IH]; simpl; [reflexivity|].
  rewrite insert_by_perm. now apply perm_skip.
Qed.

Section SortedInsert.
Context {A : Type} (leb : A -> A -> bool).
Hypothesis leb_total : forall a b, leb a b = false -> leb b a = true.

Lemma insert_by_sorted (x : A) (l : list A) :
  Sorted (fun a b => leb a b = true) l ->
  Sorted (fun a b => leb a b = true) (insert_by leb x l).
Proof.
  induction 1 as [|y l Hl IH Hhd]; simpl; [repeat constructor|].
  destruct (leb x y) eqn:Exy.
  - constructor; [now constructor|]. now constructor.
  - constructor; [exact IH|].
    destruct l as [|z l]; simpl; [constructor; now apply leb_total|].
    inversion Hhd; subst.
    destruct (leb x z); constructor; [now apply leb_total|assumption].
Qed.

Lemma sort_by_sorted (l : list A) : Sorted (fun a b => leb a b = true) (sort_by leb l).
Proof.
  induction l as [|x l IH]; simpl; [constructor|]. now apply insert_by_sorted.
Qed.
End SortedInsert.

(** ** SQL predicate lemmas *)

Lemma sql_and_true (a b : option bool) :
  sql_true (sql_and a b) = true -> sql_true a = true /\ sql_true b = true.
Proof. destruct a as [[]|], b as [[]|]; simpl; intuition congruence. Qed.

Lemma sql_or_true (a b : option bool) :
  sql_true (sql_or a b) = true -> sql_true a = true \/ sql_true b = true.
Proof. destruct a as [[]|], b as [[]|]; simpl; intuition congruence. Qed.

(** What a row accepted by the WHERE clause of [clean_one] satisfies. *)
Lemma clean_pred_sound (r : trip_row) :
  sql_true (clean_pred r) = true ->
  (exists d, trip_distance r = Some d /\ (0 < d)%Q /\ (d <= MAX_TRIP_MILES)%Q)
  /\ (exists s, duration_seconds r = Some s /\ s <= MAX_TRIP_SECONDS)
  /\ (passenger_count r = None \/ exists p, passenger_count r = Some p /\ p <> 0).
Proof.
  unfold clean_pred. intros H.
  apply sql_and_true in H as [H Hdur].
  apply sql_and_true in H as [H Hle].
  apply sql_and_true in H as [Hpc Hgt].
  split; [|split].
  - unfold q_gt, q_le in *.
    destruct (trip_distance r) as [d|]; simpl in *; [|discriminate].
    exists d. split; [reflexivity|]. split.
    + apply Qnot_le_lt. intros Hd. apply Qle_bool_iff in Hd. now rewrite Hd in Hgt.
    + apply Qle_bool_iff. revert Hle. now destruct (Qle_bool d MAX_TRIP_MILES).
  - unfold z_le in Hdur. destruct (duration_seconds r) as [s|]; simpl in *; [|discriminate].
    exists s. split; [reflexivity|]. apply Z.leb_le.
    revert Hdur. now destruct (s <=? MAX_TRIP_SECONDS).
  - apply sql_or_true in Hpc as [Hn|Hne].
    + unfold is_null in Hn. destruct (passenger_count r); simpl in *; [discriminate|now left].
    + unfold z_ne in Hne. destruct (passenger_count r) as [p|]; simpl in *; [|discriminate].
      right. exists p. split; [reflexivity|].
      destruct (p =? 0) eqn:E; simpl in Hne; [discriminate|]. now apply Z.eqb_neq.
Qed.

Lemma clean_one_ok (con : db) (src dst : string) (con' : db) :
  clean_one con src dst = Ok con' ->
  exists raw, select_trip_cols (delete dst con) src = Ok raw
           /\ con' = <[dst := TTrips (clean_query raw)]> (delete dst con).
Proof.
  unfold clean_one. destruct (select_trip_cols (delete dst con) src) as [raw|e]; simpl;
    [|discriminate].
  intros H. inversion H. eauto.
Qed.

(** [C1] (as amended) Every row written by [clean_one] has
    0 < trip_distance <= 100, a non-NULL duration of at most 86400 seconds,
    and a NULL or non-zero passenger_count; no two rows are field-wise
    identical.  The filter sets no lower bound on the duration. *)
Theorem clean_one_invariants (con : db) (src dst : string) (con' : db) :
  clean_one con src dst = Ok con' ->
  exists rows, con' !! dst = Some (TTrips rows) /\ clean_table_ok rows.
Proof.
  intros H. apply clean_one_ok in H as (raw & _ & ->).
  exists (clean_query raw). split; [now rewrite lookup_insert_eq|]. split.
  - intros r Hr. apply in_distinct_by, filter_In in Hr as [_ Hr].
    exact (clean_pred_sound r Hr).
  - apply distinct_by_pairwise.
Qed.

Lemma clean_one_invariants_witness :
  exists con', clean_one (db_with factors_by_type) "yellow_trips_2015" "yellow_trips_2015_clean" = Ok con'
  /\ exists rows, con' !! "yellow_trips_2015_clean"%string = Some (TTrips rows) /\ clean_table_ok rows.
Proof.
  eexists. split; [reflexivity|].
  apply (clean_one_invariants (db_with factors_by_type) "yellow_trips_2015"
           "yellow_trips_2015_clean"). reflexivity.
Defined.

(** [C1] The claim as stated fails: a trip with dropoff equal to pickup
    passes the filter, so a cleaned row can have duration_seconds = 0. *)
Lemma clean_zero_duration_kept :
  In zero_duration_trip (clean_query [zero_duration_trip])
  /\ duration_seconds zero_duration_trip = Some 0
  /\ ~ (forall src r, In r (clean_query src) ->
          exists s, duration_seconds r = Some s /\ 0 < s /\ s <= 86400).
Proof.
  split; [now left|]. split; [reflexivity|].
  intros H. destruct (H [zero_duration_trip] zero_duration_trip) as (s & Hs & Hpos & _).
  - now left.
  - vm_compute in Hs. inversion Hs; subst. lia.
Qed.

(** [C9] Every row written by [clean_one] is a row of the raw input: the
    filter selects and deduplicates, it neither fabricates nor alters rows. *)
Theorem clean_one_rows_from_source (con : db) (src dst : string) (con' : db) :
  clean_one con src dst = Ok con' ->
  exists raw rows, select_trip_cols (delete dst con) src = Ok raw
    /\ con' !! dst = Some (TTrips rows)
    /\ forall r, In r rows -> In r raw.
Proof.
  intros H. apply clean_one_ok in H as (raw & Hraw & ->).
  exists raw, (clean_query raw). split; [exact Hraw|]. split; [now rewrite lookup_insert_eq|].
  intros r Hr. apply in_distinct_by, filter_In in Hr as [Hr _]. exact Hr.
Qed.

Lemma clean_one_rows_from_source_witness :
  exists con', clean_one (db_with factors_by_type) "yellow_trips_2015" "yellow_trips_2015_clean" = Ok con'
  /\ exists raw rows, select_trip_cols (delete "yellow_trips_2015_clean"%string (db_with factors_by_type))
                        "yellow_trips_2015" = Ok raw
    /\ con' !! "yellow_trips_2015_clean"%string = Some (TTrips rows)
    /\ forall r, In r rows -> In r raw.
Proof.
  eexists. split; [reflexivity|].
  apply (clean_one_rows_from_source (db_with factors_by_type) "yellow_trips_2015"
           "yellow_trips_2015_clean"). reflexivity.
Defined.

(** ** The Emission Enricher *)

(** [transform_one] with its final column check evaluated: the check always
    passes, since the created table has the enriched column set. *)
Lemma transform_one_eq (con : db) (src dst taxi : string) :
  transform_one con src dst taxi =
  if negb (table_exists con "vehicle_emissions") then Err (ETableMissing "vehicle_emissions")
  else if negb (table_exists con src) then Err (ETableMissing src)
  else bind (build_emissions_cte (delete dst con) taxi) (fun ve =>
       bind (select_trip_cols (delete dst con) src) (fun base =>
       Ok (<[dst := TEnriched (transform_query base ve)]> (delete dst con)))).
Proof.
  unfold transform_one.
  destruct (table_exists con "vehicle_emissions"), (table_exists con src); simpl; try reflexivity.
  destruct (build_emissions_cte _ _); simpl; [|reflexivity].
  destruct (select_trip_cols _ _); simpl; [|reflexivity].
  rewrite lookup_insert_eq. reflexivity.
Qed.

Lemma transform_one_ok (con : db) (src dst taxi : string) (con' : db) :
  transform_one con src dst taxi = Ok con' ->
  exists ve base,
    build_emissions_cte (delete dst con) taxi = Ok ve
    /\ select_trip_cols (delete dst con) src = Ok base
    /\ con' = <[dst := TEnriched (transform_query base ve)]> (delete dst con).
Proof.
  rewrite transform_one_eq.
  destruct (table_exists con "vehicle_emissions"), (table_exists con src); simpl;
    try discriminate.
  destruct (build_emissions_cte _ _) as [ve|]; simpl; [|discriminate].
  destruct (select_trip_cols _ _) as [base|]; simpl; [|discriminate].
  intros H. inversion H. eauto.
Qed.

(** The lookup reads only the vehicle_emissions table. *)
Lemma build_emissions_cte_ext (con1 con2 : db) (taxi : string) :
  con1 !! "vehicle_emissions"%string = con2 !! "vehicle_emissions"%string ->
  build_emissions_cte con1 taxi = build_emissions_cte con2 taxi.
Proof.
  intros H. unfold build_emissions_cte, get_emissions_cols, emission_rows. now rewrite H.
Qed.

(** LIMIT 1: the lookup yields at most one factor, taken from a table row. *)
Lemma build_emissions_cte_shape (con : db) (taxi : string) (ve : list (option Q)) :
  build_emissions_cte con taxi = Ok ve ->
  (length ve <= 1)%nat /\ forall g, In g ve -> exists em, In em (emission_rows con) /\ g = co2_grams_per_mile em.
Proof.
  unfold build_emissions_cte.
  destruct (negb _); [discriminate|].
  assert (Hf : forall l : list emission_row,
    (length (map co2_grams_per_mile (firstn 1 l)) <= 1)%nat
    /\ forall g, In g (map co2_grams_per_mile (firstn 1 l)) -> exists em, In em l /\ g = co2_grams_per_mile em).
  { intros l. split.
    - rewrite length_map, length_firstn. lia.
    - intros g Hg. apply in_map_iff in Hg as (em & <- & Hem).
      exists em. split; [|reflexivity].
      destruct l as [|x l]; simpl in Hem; [contradiction|]. destruct Hem as [<-|[]]. now left. }
  destruct (str_mem _ _); intros H; inversion H; subst; clear H.
  - match goal with |- context [firstn 1 (List.filter ?f _)] =>
      destruct (Hf (List.filter f (emission_rows con))) as [H1 H2] end.
    split; [lia|].
    intros g Hg. destruct (H2 g Hg) as (em & Hem & ->). apply filter_In in Hem as [Hem _]. eauto.
  - destruct (Hf (emission_rows con)) as [H1 H2]. split; [lia|exact H2].
Qed.

Lemma transform_query_single (base : list trip_row) (g : option Q) :
  transform_query base [g] = map (fun b => enrich_row b g) base.
Proof. induction base as [|b base IH]; simpl; [reflexivity|]. now rewrite IH. Qed.

Lemma transform_query_nil (base : list trip_row) : transform_query base [] = [].
Proof. induction base; simpl; auto. Qed.

Lemma trip_of_enrich_row (b : trip_row) (g : option Q) : trip_of_enriched (enrich_row b g) = b.
Proof. destruct b; reflexivity. Qed.

Lemma transform_one_dst_ne (con : db) (src dst taxi : string) (con' : db) :
  transform_one con src dst taxi = Ok con' -> dst <> "vehicle_emissions"%string.
Proof.
  intros H ->. apply transform_one_ok in H as (ve & base & Hve & _ & _).
  revert Hve. unfold build_emissions_cte, get_emissions_cols.
  rewrite lookup_delete_eq. simpl. discriminate.
Qed.

(** [C2] (as amended) [transform_one] raises when vehicle_emissions is
    absent, when the source table is absent, or when vehicle_emissions has
    no co2_grams_per_mile column.  Otherwise the lookup is not checked: it
    yields at most one factor row (LIMIT 1), possibly none, and the
    enrichment succeeds with it. *)
Theorem transform_one_fatal_cases (con : db) (src dst taxi : string) :
  (con !! "vehicle_emissions"%string = None -> exists e, transform_one con src dst taxi = Err e)
  /\ (con !! src = None -> exists e, transform_one con src dst taxi = Err e)
  /\ (str_mem "co2_grams_per_mile" (get_emissions_cols con) = false ->
        exists e, transform_one con src dst taxi = Err e)
  /\ (forall cols rows srows,
        dst <> "vehicle_emissions"%string -> dst <> src ->
        con !! "vehicle_emissions"%string = Some (TEmissions cols rows) ->
        con !! src = Some (TTrips srows) ->
        str_mem "co2_grams_per_mile" (map lower cols) = true ->
        exists ve con', build_emissions_cte con taxi = Ok ve /\ (length ve <= 1)%nat
          /\ transform_one con src dst taxi = Ok con'
          /\ con' !! dst = Some (TEnriched (transform_query srows ve))).
Proof.
  repeat split.
  - intros H. rewrite transform_one_eq. unfold table_exists. rewrite H. simpl. eauto.
  - intros H. rewrite transform_one_eq. unfold table_exists at 2. rewrite H.
    destruct (table_exists con "vehicle_emissions"); simpl; eauto.
  - intros H. rewrite transform_one_eq.
    destruct (table_exists con "vehicle_emissions"), (table_exists con src); simpl; eauto.
    assert (Hcte : exists e, build_emissions_cte (delete dst con) taxi = Err e).
    { unfold build_emissions_cte.
      destruct (decide (dst = "vehicle_emissions"%string)) as [->|Hne].
      - unfold get_emissions_cols. rewrite lookup_delete_eq. simpl. eauto.
      - replace (get_emissions_cols (delete dst con)) with (get_emissions_cols con).
        + rewrite H. simpl. eauto.
        + unfold get_emissions_cols. now rewrite lookup_delete_ne. }
    destruct Hcte as [e ->]. simpl. eauto.
  - intros cols rows srows Hdve Hdsrc Hve Hsrc Hco2.
    assert (Hve' : delete dst con !! "vehicle_emissions"%string = con !! "vehicle_emissions"%string)
      by now rewrite lookup_delete_ne.
    assert (Hok : exists ve, build_emissions_cte con taxi = Ok ve).
    { unfold build_emissions_cte, get_emissions_cols. rewrite Hve. simpl table_columns.
      rewrite Hco2. cbn [negb]. destruct (str_mem "taxi_type" (map lower cols)); eauto. }
    destruct Hok as [ve Hok].
    exists ve, (<[dst := TEnriched (transform_query srows ve)]> (delete dst con)).
    split; [exact Hok|]. split; [exact (proj1 (build_emissions_cte_shape _ _ _ Hok))|].
    split; [|now rewrite lookup_insert_eq].
    rewrite transform_one_eq. unfold table_exists. rewrite Hve, Hsrc. simpl.
    rewrite (build_emissions_cte_ext _ con taxi Hve'), Hok. simpl.
    unfold select_trip_cols. rewrite lookup_delete_ne by congruence. rewrite Hsrc.
    reflexivity.
Qed.

Lemma transform_one_fatal_cases_witness :
  exists ve con',
    build_emissions_cte (db_with factors_green_only) "yellow" = Ok ve /\ (length ve <= 1)%nat
    /\ transform_one (db_with factors_green_only) "yellow_trips_2015_clean"
         "yellow_trips_2015_transformed" "yellow" = Ok con'
    /\ con' !! "yellow_trips_2015_transformed"%string
       = Some (TEnriched (transform_query [yellow_trip 10 ts_a ts_b; zero_duration_trip] ve)).
Proof.
  apply (proj2 (proj2 (proj2 (transform_one_fatal_cases (db_with factors_green_only)
           "yellow_trips_2015_clean" "yellow_trips_2015_transformed" "yellow")))
         ["taxi_type"; "co2_grams_per_mile"]%string
         [mkEmission (Some "green"%string) (Some 300%Q)]);
    [discriminate | discriminate | reflexivity | reflexivity | reflexivity].
Defined.

(** [C2] The claim as stated fails: a lookup that resolves to zero rows, or
    to two rows, for the requested category does not abort the enrichment. *)
Lemma transform_zero_or_two_factors_no_error :
  build_emissions_cte (db_with factors_green_only) "yellow" = Ok []
  /\ is_ok (transform_one (db_with factors_green_only) "yellow_trips_2015_clean"
              "yellow_trips_2015_transformed" "yellow") = true
  /\ build_emissions_cte (db_with factors_two_yellow) "yellow" = Ok [Some 400%Q]
  /\ is_ok (transform_one (db_with factors_two_yellow) "yellow_trips_2015_clean"
              "yellow_trips_2015_transformed" "yellow") = true.
Proof. repeat split; vm_compute; reflexivity. Qed.

(** [C3] (as amended) The enriched table is the source rows crossed with the
    resolved factor rows, of which there is at most one.  With one factor,
    output row i is source row i enriched, so the counts agree and each
    output row traces to exactly one source row; when the lookup resolves to
    no row, the output is empty. *)
Theorem transform_one_row_conservation (con : db) (src dst taxi : string) (con' : db) :
  transform_one con src dst taxi = Ok con' ->
  exists base out,
    select_trip_cols (delete dst con) src = Ok base
    /\ con' !! dst = Some (TEnriched out)
    /\ ((exists g, build_emissions_cte (delete dst con) taxi = Ok [g]
                   /\ out = map (fun b => enrich_row b g) base
                   /\ map trip_of_enriched out = base
                   /\ length out = length base)
        \/ (build_emissions_cte (delete dst con) taxi = Ok [] /\ out = [])).
Proof.
  intros H. apply transform_one_ok in H as (ve & base & Hve & Hbase & ->).
  exists base, (transform_query base ve). split; [exact Hbase|].
  split; [now rewrite lookup_insert_eq|].
  destruct (build_emissions_cte_shape _ _ _ Hve) as [Hlen _].
  destruct ve as [|g [|g' ve]]; simpl in Hlen; [|left|lia].
  - right. split; [exact Hve|]. apply transform_query_nil.
  - exists g. rewrite transform_query_single. split; [exact Hve|]. split; [reflexivity|].
    split; [|now rewrite length_map].
    rewrite map_map. erewrite map_ext; [apply map_id|]. intros b. apply trip_of_enrich_row.
Qed.

Lemma transform_one_row_conservation_witness :
  exists con', transform_one (db_with factors_by_type) "yellow_trips_2015_clean"
                 "yellow_trips_2015_transformed" "yellow" = Ok con'
  /\ exists base out,
    select_trip_cols (delete "yellow_trips_2015_transformed"%string (db_with factors_by_type))
      "yellow_trips_2015_clean" = Ok base
    /\ con' !! "yellow_trips_2015_transformed"%string = Some (TEnriched out)
    /\ ((exists g, build_emissions_cte (delete "yellow_trips_2015_transformed"%string
                                          (db_with factors_by_type)) "yellow" = Ok [g]
                   /\ out = map (fun b => enrich_row b g) base
                   /\ map trip_of_enriched out = base
                   /\ length out = length base)
        \/ (build_emissions_cte (delete "yellow_trips_2015_transformed"%string
                                   (db_with factors_by_type)) "yellow" = Ok [] /\ out = [])).
Proof.
  eexists. split; [vm_compute; reflexivity|].
  apply (transform_one_row_conservation (db_with factors_by_type) "yellow_trips_2015_clean"
           "yellow_trips_2015_transformed" "yellow").
  vm_compute. reflexivity.
Defined.

(** [C3] The claim as stated fails: with no factor row for the category,
    a two-row cleaned partition is enriched into an empty table. *)
Lemma transform_drops_rows_without_factor :
  select_trip_cols (db_with factors_green_only) "yellow_trips_2015_clean"
    = Ok [yellow_trip 10 ts_a ts_b; zero_duration_trip]
  /\ exists con', transform_one (db_with factors_green_only) "yellow_trips_2015_clean"
                    "yellow_trips_2015_transformed" "yellow" = Ok con'
     /\ con' !! "yellow_trips_2015_transformed"%string = Some (TEnriched []).
Proof.
  split; [vm_compute; reflexivity|].
  eexists. split; [vm_compute; reflexivity|]. vm_compute. reflexivity.
Qed.

(** [C5] Every enriched row carries trip_co2_kgs = trip_distance *
    co2_grams_per_mile / 1000 for one factor row of vehicle_emissions shared
    by the whole partition; a 10-mile trip with a 400 g/mile factor gives
    exactly 4 kg. *)
Theorem trip_co2_formula :
  (forall (con : db) (src dst taxi : string) (con' : db),
     transform_one con src dst taxi = Ok con' ->
     exists out, con' !! dst = Some (TEnriched out)
       /\ (out = []
           \/ exists em, In em (emission_rows con)
              /\ forall e, In e out ->
                   trip_co2_kgs e = lift2 (fun d f => (d * f) / 1000)%Q
                                      (e_trip_distance e) (co2_grams_per_mile em)))
  /\ (forall b : trip_row, trip_distance b = Some 10%Q ->
        exists c, trip_co2_kgs (enrich_row b (Some 400%Q)) = Some c /\ (c == 4)%Q).
Proof.
  split.
  - intros con src dst taxi con' H.
    pose proof (transform_one_dst_ne _ _ _ _ _ H) as Hdst.
    apply transform_one_ok in H as (ve & base & Hve & _ & ->).
    exists (transform_query base ve). split; [now rewrite lookup_insert_eq|].
    destruct (build_emissions_cte_shape _ _ _ Hve) as [Hlen Hfrom].
    destruct ve as [|g [|g' ve]]; simpl in Hlen; [left; apply transform_query_nil| |lia].
    right. destruct (Hfrom g (or_introl eq_refl)) as (em & Hem & ->).
    exists em. split.
    + unfold emission_rows in *. now rewrite lookup_delete_ne in Hem.
    + rewrite transform_query_single. intros e He.
      apply in_map_iff in He as (b & <- & _). reflexivity.
  - intros b Hb. unfold enrich_row. cbn [trip_co2_kgs]. rewrite Hb.
    eexists. split; [reflexivity|]. reflexivity.
Qed.

Lemma trip_co2_formula_witness :
  (exists con', transform_one (db_with factors_by_type) "yellow_trips_2015_clean"
                 "yellow_trips_2015_transformed" "yellow" = Ok con'
   /\ exists out, con' !! "yellow_trips_2015_transformed"%string = Some (TEnriched out)
     /\ (out = []
         \/ exists em, In em (emission_rows (db_with factors_by_type))
            /\ forall e, In e out ->
                 trip_co2_kgs e = lift2 (fun d f => (d * f) / 1000)%Q
                                    (e_trip_distance e) (co2_grams_per_mile em)))
  /\ exists c, trip_co2_kgs (enrich_row (yellow_trip 10 ts_a ts_b) (Some 400%Q)) = Some c
               /\ (c == 4)%Q.
Proof.
  split.
  - eexists. split; [vm_compute; reflexivity|].
    apply (proj1 trip_co2_formula (db_with factors_by_type) "yellow_trips_2015_clean"
             "yellow_trips_2015_transformed" "yellow").
    vm_compute. reflexivity.
  - apply (proj2 trip_co2_formula). reflexivity.
Defined.

(** [C8] avg_mph is NULL whenever the duration is NULL or not positive, and
    is trip_distance / (duration_seconds / 3600) when it is positive; the
    row values never decide whether [transform_one] raises. *)
Theorem avg_mph_guarded :
  (forall (b : trip_row) (g : option Q),
     (forall s, duration_seconds b = Some s -> s <= 0) ->
     avg_mph (enrich_row b g) = None)
  /\ (forall (b : trip_row) (g : option Q) (s : Z) (d : Q),
        duration_seconds b = Some s -> 0 < s -> trip_distance b = Some d ->
        avg_mph (enrich_row b g) = Some (d / (inject_Z s / 3600))%Q)
  /\ (forall (con : db) (src dst taxi : string) (rows rows' : list trip_row),
        is_ok (transform_one (<[src := TTrips rows]> con) src dst taxi)
        = is_ok (transform_one (<[src := TTrips rows']> con) src dst taxi)).
Proof.
  split; [|split].
  - intros b g Hs. unfold enrich_row. cbn [avg_mph].
    destruct (duration_seconds b) as [s|] eqn:E; [|reflexivity].
    specialize (Hs s eq_refl). simpl.
    assert (Hq : Qle_bool (inject_Z s) 0 = true).
    { apply Qle_bool_iff. change 0%Q with (inject_Z 0). now rewrite <- Zle_Qle. }
    now rewrite Hq.
  - intros b g s d Hs Hpos Hd. unfold enrich_row. cbn [avg_mph]. rewrite Hs, Hd. simpl.
    assert (Hq : Qle_bool (inject_Z s) 0 = false).
    { apply not_true_is_false. intros Hle. apply Qle_bool_iff in Hle.
      change 0%Q with (inject_Z 0) in Hle. rewrite <- Zle_Qle in Hle. lia. }
    now rewrite Hq.
  - intros con src dst taxi rows rows'. rewrite !transform_one_eq. unfold table_exists.
    destruct (decide (src = "vehicle_emissions"%string)) as [->|Hne].
    + rewrite !lookup_insert_eq. simpl.
      destruct (decide (dst = "vehicle_emissions"%string)) as [->|Hd].
      * unfold build_emissions_cte, get_emissions_cols. rewrite !lookup_delete_eq. reflexivity.
      * unfold build_emissions_cte, get_emissions_cols.
        rewrite !lookup_delete_ne by congruence. rewrite !lookup_insert_eq. reflexivity.
    + rewrite (lookup_insert_ne con src "vehicle_emissions"%string (TTrips rows)) by congruence.
      rewrite (lookup_insert_ne con src "vehicle_emissions"%string (TTrips rows')) by congruence.
      rewrite (lookup_insert_eq con src (TTrips rows)), (lookup_insert_eq con src (TTrips rows')).
      simpl. destruct (con !! "vehicle_emissions"%string) eqn:Eve; simpl; [|reflexivity].
      rewrite (build_emissions_cte_ext (delete dst (<[src:=TTrips rows]> con)) (delete dst con)).
      2:{ rewrite !lookup_delete. destruct (decide _); [reflexivity|].
          now rewrite lookup_insert_ne by congruence. }
      rewrite (build_emissions_cte_ext (delete dst (<[src:=TTrips rows']> con)) (delete dst con)).
      2:{ rewrite !lookup_delete. destruct (decide _); [reflexivity|].
          now rewrite lookup_insert_ne by congruence. }
      destruct (build_emissions_cte (delete dst con) taxi); simpl; [|reflexivity].
      unfold select_trip_cols.
      destruct (decide (dst = src)) as [->|Hd].
      * rewrite !lookup_delete_eq. reflexivity.
      * rewrite !lookup_delete_ne by congruence. rewrite !lookup_insert_eq. reflexivity.
Qed.

Lemma avg_mph_guarded_witness :
  avg_mph (enrich_row zero_duration_trip (Some 400%Q)) = None
  /\ avg_mph (enrich_row (yellow_trip 10 ts_a ts_b) (Some 400%Q))
     = Some (10 / (inject_Z 3600 / 3600))%Q
  /\ is_ok (transform_one (<["yellow_trips_2015_clean" := TTrips [zero_duration_trip]]>
                             (db_with factors_by_type))
              "yellow_trips_2015_clean" "yellow_trips_2015_transformed" "yellow")
     = is_ok (transform_one (<["yellow_trips_2015_clean" := TTrips [yellow_trip 10 ts_a ts_b]]>
                               (db_with factors_by_type))
                "yellow_trips_2015_clean" "yellow_trips_2015_transformed" "yellow").
Proof.
  split; [|split].
  - apply (proj1 avg_mph_guarded). intros s Hs. vm_compute in Hs. inversion Hs. lia.
  - apply (proj1 (proj2 avg_mph_guarded)); [reflexivity|lia|reflexivity].
  - apply (proj2 (proj2 avg_mph_guarded)).
Defined.

(** [C10] With a taxi_type column, the factor row is found by comparing
    lower(taxi_type) with the requested category; for the categories the
    scripts request (CABS, all lowercase), a row whose category differs only
    in letter case resolves to exactly one factor. *)
Theorem factor_lookup_case_insensitive (con : db) (taxi : string) (cols : list string)
    (rows : list emission_row) (em : emission_row) (s : string) :
  In taxi CABS ->
  con !! "vehicle_emissions"%string = Some (TEmissions cols rows) ->
  str_mem "co2_grams_per_mile" (map lower cols) = true ->
  str_mem "taxi_type" (map lower cols) = true ->
  In em rows -> em_taxi_type em = Some s -> lower s = lower taxi ->
  exists g, build_emissions_cte con taxi = Ok [g].
Proof.
  intros Hcab Hve Hco2 Htt Hem Hs Hlow.
  assert (Htaxi : lower taxi = taxi).
  { destruct Hcab as [<-|[<-|[]]]; reflexivity. }
  unfold build_emissions_cte, get_emissions_cols, emission_rows. rewrite Hve.
  simpl table_columns. rewrite Hco2, Htt. cbn [negb].
  match goal with |- context [List.filter ?f rows] =>
    assert (Hin : In em (List.filter f rows)); [|destruct (List.filter f rows) as [|x l]] end.
  - apply filter_In. split; [exact Hem|]. rewrite Hs. simpl.
    rewrite Hlow, Htaxi, String.eqb_refl. reflexivity.
  - contradiction.
  - simpl. eauto.
Qed.

Lemma factor_lookup_case_insensitive_witness :
  exists g, build_emissions_cte (db_with factors_by_type) "yellow" = Ok [g].
Proof.
  apply (factor_lookup_case_insensitive (db_with factors_by_type) "yellow"
           ["taxi_type"; "co2_grams_per_mile"]%string
           [mkEmission (Some "Yellow"%string) (Some 400%Q);
            mkEmission (Some "green"%string) (Some 300%Q)]
           (mkEmission (Some "Yellow"%string) (Some 400%Q)) "Yellow");
    [now left | reflexivity | reflexivity | reflexivity | now left | reflexivity | reflexivity].
Defined.

(** ** Aggregation *)

Lemma in_omap {A B} (f : A -> option B) (l : list A) (y : B) :
  In y (omap f l) <-> exists x, In x l /\ f x = Some y.
Proof.
  induction l as [|x l IH]; simpl; [split; [tauto|intros (? & [] & _)]|].
  destruct (f x) as [z|] eqn:E; simpl; rewrite ?IH; split.
  - intros [<-|(x' & Hx' & Hf)]; eauto.
  - intros (x' & [<-|Hx'] & Hf); [left; congruence|eauto].
  - intros (x' & Hx' & Hf); eauto.
  - intros (x' & [<-|Hx'] & Hf); [congruence|eauto].
Qed.

Lemma group_by_keys {K} (keqb kleb : K -> K -> bool) (agg : list Q -> Q) (pairs : list (K * Q)) :
  map fst (group_by keqb kleb agg pairs) = sort_by kleb (distinct_by keqb (map fst pairs)).
Proof. unfold group_by. rewrite map_map. simpl. apply map_id. Qed.

(** Every key of a GROUP BY result is the key of some input pair. *)
Lemma group_by_key_from_input {K} (keqb kleb : K -> K -> bool) (agg : list Q -> Q)
    (pairs : list (K * Q)) (k : K) (q : Q) :
  In (k, q) (group_by keqb kleb agg pairs) -> exists c, In (k, c) pairs.
Proof.
  intros H. apply (in_map fst) in H. rewrite group_by_keys in H. simpl in H.
  apply (Permutation_in _ (sort_by_perm _ _)), in_distinct_by, in_map_iff in H
    as ([k' c] & Hk & Hin). simpl in Hk. subst k'. eauto.
Qed.

Lemma ym_eqb_iff (a b : option (Z * Z)) : ym_eqb a b = true <-> a = b.
Proof.
  destruct a as [[y1 m1]|], b as [[y2 m2]|]; simpl; split; intros H; try congruence.
  - apply andb_true_iff in H as [H1 H2]. apply Z.eqb_eq in H1, H2. simpl in *. congruence.
  - inversion H; subst. simpl. now rewrite !Z.eqb_refl.
Qed.

(** [C4] (as amended) Neither report zero-fills.  For a view whose rows
    with a CO2 value fall in months 1 and 3 only (both present), the
    month-of-year average report has exactly the two buckets 1 and 3.  The
    monthly-total report has one entry per (year, month) of the rows with a
    CO2 value: every entry is the (year, month) of such a row, with month 1
    or 3; every such (year, month) has an entry; no (year, month) has two.
    When those rows all fall in one year, the report has 2 entries. *)
Theorem monthly_reports_no_zero_fill (v : list enriched_row) :
  (forall e, In e v -> trip_co2_kgs e <> None ->
     exists t, e_pickup_datetime e = Some t /\ month_of_year e = Some (ts_month t)
               /\ (ts_month t = 1 \/ ts_month t = 3)) ->
  (exists e, In e v /\ trip_co2_kgs e <> None /\ month_of_year e = Some 1) ->
  (exists e, In e v /\ trip_co2_kgs e <> None /\ month_of_year e = Some 3) ->
  Permutation (map fst (avg_by_bucket v MonthOfYear)) [1; 3]
  /\ (forall k q, In (k, q) (monthly_totals_full v) ->
       exists e y m, In e v /\ trip_co2_kgs e <> None /\ ym_key e = Some (y, m)
                     /\ k = Some (y, m) /\ (m = 1 \/ m = 3))
  /\ (forall e, In e v -> trip_co2_kgs e <> None -> In (ym_key e) (map fst (monthly_totals_full v)))
  /\ List.NoDup (map fst (monthly_totals_full v))
  /\ (forall y0, (forall e t, In e v -> trip_co2_kgs e <> None -> e_pickup_datetime e = Some t ->
                             ts_year t = y0) ->
       length (monthly_totals_full v) = 2%nat).
Proof.
  intros Hv H1 H3.
  assert (Hsound : forall k q, In (k, q) (monthly_totals_full v) ->
       exists e y m, In e v /\ trip_co2_kgs e <> None /\ ym_key e = Some (y, m)
                     /\ k = Some (y, m) /\ (m = 1 \/ m = 3)).
  { intros k q Hk. apply group_by_key_from_input in Hk as (c & Hin).
    apply in_omap in Hin as (e & He & Hf).
    destruct (trip_co2_kgs e) as [c'|] eqn:Ec; [|discriminate]. inversion Hf; subst.
    destruct (Hv e He) as (t & Hp & _ & Ht); [congruence|].
    exists e, (ts_year t), (ts_month t). unfold ym_key. rewrite Hp. simpl.
    repeat split; auto; congruence. }
  assert (Hkeys : forall k, In k (map fst (monthly_totals_full v)) <->
                  exists e, In e v /\ trip_co2_kgs e <> None /\ ym_key e = k).
  { intros k. unfold monthly_totals_full. rewrite group_by_keys.
    split.
    - intros Hk. apply (Permutation_in _ (sort_by_perm _ _)) in Hk.
      apply (in_distinct_by_iff ym_eqb ym_eqb_iff), in_map_iff in Hk as ([k' c] & <- & Hin).
      apply in_omap in Hin as (e & He & Hf). simpl.
      destruct (trip_co2_kgs e) as [c'|] eqn:Ec; [|discriminate]. inversion Hf; subst.
      exists e. repeat split; auto; congruence.
    - intros (e & He & Hc & <-). apply (Permutation_in _ (Permutation_sym (sort_by_perm _ _))).
      apply (in_distinct_by_iff ym_eqb ym_eqb_iff), in_map_iff.
      destruct (trip_co2_kgs e) as [c|] eqn:Ec; [|congruence].
      exists (ym_key e, c). split; [reflexivity|]. apply in_omap. exists e. now rewrite Ec. }
  assert (Hnd : List.NoDup (map fst (monthly_totals_full v))).
  { unfold monthly_totals_full. rewrite group_by_keys.
    eapply Permutation.Permutation_NoDup; [symmetry; apply sort_by_perm|].
    apply distinct_by_NoDup, ym_eqb_iff. }
  split; [|split; [exact Hsound|split; [|split; [exact Hnd|]]]].
  - unfold avg_by_bucket. rewrite group_by_keys, sort_by_perm.
    apply Permutation.NoDup_Permutation.
    + apply distinct_by_NoDup. intros a b. apply Z.eqb_eq.
    + repeat constructor; simpl; [intros [H|[]]; discriminate|tauto].
    + intros x. rewrite (in_distinct_by_iff Z.eqb (fun a b => Z.eqb_eq a b)), in_map_iff.
      split.
      * intros ([k c] & <- & Hin). apply in_omap in Hin as (e & He & Hf). simpl.
        destruct (month_of_year e) as [m|] eqn:Em, (trip_co2_kgs e) as [c'|] eqn:Ec;
          simpl in Hf; rewrite ?Em, ?Ec in Hf; try discriminate.
        inversion Hf; subst. destruct (Hv e He) as (t & _ & Hm & Ht); [congruence|].
        rewrite Em in Hm. inversion Hm; subst. simpl. destruct Ht as [-> | ->]; tauto.
      * intros Hx. assert (exists e, In e v /\ trip_co2_kgs e <> None /\ month_of_year e = Some x)
          as (e & He & Hc & Hm) by (destruct Hx as [<-|[<-|[]]]; assumption).
        destruct (trip_co2_kgs e) as [c|] eqn:Ec; [|congruence].
        exists (x, c). split; [reflexivity|]. apply in_omap. exists e. split; [exact He|].
        simpl. now rewrite Hm, Ec.
  - intros e He Hc. apply Hkeys. eauto.
  - intros y0 Hy.
    assert (Hkey : forall e m, In e v -> trip_co2_kgs e <> None -> month_of_year e = Some m ->
                   ym_key e = Some (y0, m)).
    { intros e m He Hc Hm. destruct (Hv e He Hc) as (t & Hp & Hm' & _).
      unfold ym_key. rewrite Hp. simpl. unfold extract_year, extract_month.
      rewrite (Hy e t He Hc Hp). congruence. }
    assert (Hperm : Permutation (map fst (monthly_totals_full v)) [Some (y0, 1); Some (y0, 3)]).
    { apply Permutation.NoDup_Permutation; [exact Hnd| |].
      - repeat constructor; simpl; [intros [H|[]]; discriminate|tauto].
      - intros k. rewrite Hkeys. split.
        + intros (e & He & Hc & <-). destruct (Hv e He Hc) as (t & Hp & Hm & [Ht|Ht]).
          * left. symmetry. apply Hkey; [assumption|assumption|congruence].
          * right. left. symmetry. apply Hkey; [assumption|assumption|congruence].
        + intros [<-|[<-|[]]].
          * destruct H1 as (e & He & Hc & Hm). exists e. repeat split; auto.
          * destruct H3 as (e & He & Hc & Hm). exists e. repeat split; auto. }
    apply Permutation_length in Hperm. rewrite length_map in Hperm. exact Hperm.
Qed.

Lemma monthly_reports_no_zero_fill_witness :
  Permutation (map fst (avg_by_bucket view_jan_mar MonthOfYear)) [1; 3]
  /\ (forall k q, In (k, q) (monthly_totals_full view_jan_mar) ->
       exists e y m, In e view_jan_mar /\ trip_co2_kgs e <> None /\ ym_key e = Some (y, m)
                     /\ k = Some (y, m) /\ (m = 1 \/ m = 3))
  /\ (forall e, In e view_jan_mar -> trip_co2_kgs e <> None ->
        In (ym_key e) (map fst (monthly_totals_full view_jan_mar)))
  /\ List.NoDup (map fst (monthly_totals_full view_jan_mar))
  /\ length (monthly_totals_full view_jan_mar) = 2%nat.
Proof.
  destruct (monthly_reports_no_zero_fill view_jan_mar) as (Ha & Hb & Hc & Hd & He).
  - intros e He _. destruct He as [<-|[<-|[<-|[]]]]; eexists;
      (split; [reflexivity|split; [reflexivity|simpl; auto]]).
  - exists (enriched_at 2 1 ts_a). split; [now left|]. split; [discriminate|reflexivity].
  - exists (enriched_at 3 2 ts_mar). split; [right; now left|]. split; [discriminate|reflexivity].
  - split; [exact Ha|]. split; [exact Hb|]. split; [exact Hc|]. split; [exact Hd|].
    apply (He 2015). intros e t Hin _ Hp.
    destruct Hin as [<-|[<-|[<-|[]]]]; vm_compute in Hp; inversion Hp; reflexivity.
Defined.

(** [C4] The claim as stated fails: for trips in January and March 2015 the
    monthly-total report has 2 entries, not 12, and no zero entry for the
    other months. *)
Lemma monthly_totals_not_zero_filled :
  map fst (avg_by_bucket view_jan_mar MonthOfYear) = [1; 3]
  /\ map fst (monthly_totals_full view_jan_mar) = [Some (2015, 1); Some (2015, 3)]
  /\ length (monthly_totals_full view_jan_mar) <> 12%nat.
Proof. vm_compute. split; [reflexivity|]. split; [reflexivity|]. discriminate. Qed.

(** ** The extremal trip *)

Definition co2_desc (a b : enriched_row) : Prop := (co2_key b <= co2_key a)%Q.

Lemma co2_desc_trans : Transitive co2_desc.
Proof. intros a b c Hab Hbc. unfold co2_desc in *. eapply Qle_trans; eassumption. Qed.

Lemma sorted_bool_co2_desc (l : list enriched_row) :
  Sorted (fun a b => Qle_bool (co2_key b) (co2_key a) = true) l -> Sorted co2_desc l.
Proof.
  induction 1 as [|a l Hl IH Hhd]; constructor; [exact IH|].
  destruct Hhd; constructor. now apply Qle_bool_iff.
Qed.

(** [C6] (as amended) On a view with at least one non-NULL trip_co2_kgs the
    query has a result, and every result is a single row of the view whose
    trip_co2_kgs is non-NULL and maximal among the non-NULL rows.  ORDER BY
    has no tie-breaking column, so which of several tied rows is returned is
    not fixed. *)
Theorem get_max_trip_returns_max (v : list enriched_row) :
  (exists e, In e v /\ trip_co2_kgs e <> None) ->
  (exists out, get_max_trip v out)
  /\ forall out, get_max_trip v out ->
       exists e, out = [project_max e] /\ In e v /\ trip_co2_kgs e <> None
                 /\ forall e', In e' v -> trip_co2_kgs e' <> None -> (co2_key e' <= co2_key e)%Q.
Proof.
  intros Hne. split.
  - set (leb := fun a b => Qle_bool (co2_key b) (co2_key a)).
    exists (map project_max (firstn 1 (sort_by leb
              (List.filter (fun e => is_not_null (trip_co2_kgs e)) v)))).
    eexists. split; [symmetry; apply sort_by_perm|]. split; [|reflexivity].
    apply sorted_bool_co2_desc, (sort_by_sorted leb).
    intros a b Hab. unfold leb in *. apply Qle_bool_iff.
    apply Qlt_le_weak, Qnot_le_lt. intros Hle. apply Qle_bool_iff in Hle. congruence.
  - intros out (ordered & Hperm & Hsorted & ->).
    destruct Hne as (e0 & He0 & Hc0).
    assert (Hin0 : In e0 (List.filter (fun e => is_not_null (trip_co2_kgs e)) v)).
    { apply filter_In. split; [exact He0|]. now destruct (trip_co2_kgs e0). }
    destruct ordered as [|x rest].
    { apply Permutation_sym, Permutation_nil in Hperm. rewrite Hperm in Hin0. contradiction. }
    assert (Hx : In x (List.filter (fun e => is_not_null (trip_co2_kgs e)) v)).
    { apply (Permutation_in _ (Permutation_sym Hperm)). now left. }
    apply filter_In in Hx as [Hxv Hxc].
    exists x. split; [reflexivity|]. split; [exact Hxv|].
    split; [now destruct (trip_co2_kgs x)|].
    intros e' He' Hc'.
    assert (Hin' : In e' (x :: rest)).
    { apply (Permutation_in _ Hperm). apply filter_In. split; [exact He'|].
      now destruct (trip_co2_kgs e'). }
    destruct Hin' as [<-|Hr]; [apply Qle_refl|].
    apply (Sorted_extends co2_desc_trans) in Hsorted.
    rewrite List.Forall_forall in Hsorted. exact (Hsorted e' Hr).
Qed.

Lemma get_max_trip_returns_max_witness :
  (exists out, get_max_trip view_ties out)
  /\ forall out, get_max_trip view_ties out ->
       exists e, out = [project_max e] /\ In e view_ties /\ trip_co2_kgs e <> None
                 /\ forall e', In e' view_ties -> trip_co2_kgs e' <> None ->
                               (co2_key e' <= co2_key e)%Q.
Proof.
  apply get_max_trip_returns_max. exists (enriched_at 5 1 ts_a).
  split; [now left|discriminate].
Defined.

(** [C6] The claim as stated fails: with CO2 values 5.0, 5.0 and 3.2 the
    query may return either of the two tied rows, which differ in vendor_id;
    both carry the value 5.0. *)
Lemma get_max_trip_tie_not_determined :
  get_max_trip view_ties [project_max (enriched_at 5 1 ts_a)]
  /\ get_max_trip view_ties [project_max (enriched_at 5 2 ts_b)]
  /\ [project_max (enriched_at 5 1 ts_a)] <> [project_max (enriched_at 5 2 ts_b)]
  /\ m_trip_co2_kgs (project_max (enriched_at 5 1 ts_a)) = Some 5%Q
  /\ m_trip_co2_kgs (project_max (enriched_at 5 2 ts_b)) = Some 5%Q.
Proof.
  split; [|split; [|split; [|split]]]; try reflexivity.
  - exists view_ties. split; [reflexivity|]. split; [|reflexivity].
    repeat constructor; apply Qle_bool_iff; reflexivity.
  - exists [enriched_at 5 2 ts_b; enriched_at 5 1 ts_a; enriched_at (32 # 10) 1 ts_c].
    split; [apply perm_swap|]. split; [|reflexivity].
    repeat constructor; apply Qle_bool_iff; reflexivity.
  - discriminate.
Qed.

(** ** Consolidation *)

Lemma select_union_all_concat {A} (get : table -> option (list A)) (con : db) (ts : list string) :
  (forall t, In t ts -> readable get con t) ->
  select_union_all get con ts = Ok (concat (map (rows_in get con) ts)).
Proof.
  induction ts as [|t ts IH]; intros Hr; simpl; [reflexivity|].
  destruct (Hr t (or_introl eq_refl)) as (tb & rows & Ht & Hg).
  unfold rows_in at 1. rewrite Ht, Hg. simpl.
  rewrite IH by (intros t' Ht'; apply Hr; now right). reflexivity.
Qed.

Lemma make_union_table_spec {A} (get : table -> option (list A)) (mk : list A -> table)
    (name : string) (tables : list string) (con : db) :
  (forall t, In t tables -> t <> name /\ readable get con t) ->
  exists con', make_union_table get mk name tables con = Ok con'
    /\ (forall t, t <> name -> con' !! t = con !! t)
    /\ (tables <> [] -> con' !! name = Some (mk (concat (map (rows_in get con) tables)))).
Proof.
  intros Ht. unfold make_union_table.
  assert (Hrd : forall t, In t tables -> readable get (delete name con) t).
  { intros t Hin. destruct (Ht t Hin) as [Hne (tb & rows & Hl & Hg)].
    exists tb, rows. now rewrite lookup_delete_ne by congruence. }
  assert (Hrows : map (rows_in get (delete name con)) tables = map (rows_in get con) tables).
  { apply map_ext_in. intros t Hin. destruct (Ht t Hin) as [Hne _].
    unfold rows_in. now rewrite lookup_delete_ne by congruence. }
  destruct tables as [|t0 ts].
  - exists (delete name con). split; [reflexivity|]. split; [|congruence].
    intros t Hne. now rewrite lookup_delete_ne by congruence.
  - rewrite (select_union_all_concat get _ _ Hrd), Hrows. simpl.
    eexists. split; [reflexivity|]. split.
    + intros t Hne. rewrite lookup_insert_ne by congruence.
      now rewrite lookup_delete_ne by congruence.
    + intros _. now rewrite lookup_insert_eq.
Qed.

(** The three union steps of either [build_unions]. *)
Lemma three_unions {A} (get : table -> option (list A)) (mk : list A -> table)
    (n1 n2 n3 : string) (l1 l2 : list string) (con : db) :
  (forall t, In t (l1 ++ l2) -> t <> n1 /\ t <> n2 /\ t <> n3 /\ readable get con t) ->
  l1 ++ l2 <> [] ->
  exists con',
    bind (make_union_table get mk n1 l1 con) (fun con1 =>
    bind (make_union_table get mk n2 l2 con1) (fun con2 =>
    make_union_table get mk n3 (l1 ++ l2) con2)) = Ok con'
    /\ con' !! n3 = Some (mk (concat (map (rows_in get con) (l1 ++ l2))))
    /\ forall t, t <> n1 -> t <> n2 -> t <> n3 -> con' !! t = con !! t.
Proof.
  intros Ht Hne.
  destruct (make_union_table_spec get mk n1 l1 con) as (con1 & E1 & K1 & _).
  { intros t Hin. destruct (Ht t (in_or_app _ _ _ (or_introl Hin))) as (? & _ & _ & ?). auto. }
  assert (Hr1 : forall t, In t (l1 ++ l2) -> con1 !! t = con !! t).
  { intros t Hin. apply K1. apply Ht, Hin. }
  destruct (make_union_table_spec get mk n2 l2 con1) as (con2 & E2 & K2 & _).
  { intros t Hin. assert (Hin' : In t (l1 ++ l2)) by (apply in_or_app; now right).
    destruct (Ht t Hin') as (_ & ? & _ & (tb & rows & Hl & Hg)). split; [assumption|].
    exists tb, rows. now rewrite Hr1. }
  assert (Hr2 : forall t, In t (l1 ++ l2) -> con2 !! t = con !! t).
  { intros t Hin. rewrite K2 by apply (Ht t Hin). now apply Hr1. }
  destruct (make_union_table_spec get mk n3 (l1 ++ l2) con2) as (con3 & E3 & K3 & L3).
  { intros t Hin. destruct (Ht t Hin) as (_ & _ & ? & (tb & rows & Hl & Hg)).
    split; [assumption|]. exists tb, rows. now rewrite Hr2. }
  exists con3. rewrite E1. simpl. rewrite E2. simpl. split; [exact E3|]. split.
  - rewrite (L3 Hne). do 3 f_equal. apply map_ext_in. intros t Hin.
    unfold rows_in. now rewrite Hr2.
  - intros t H1 H2 H3. rewrite K3, K2, K1; auto.
Qed.

Lemma filter_partition_perm {B} (p q : B -> bool) (l : list B) :
  (forall x, In x l -> p x = true \/ q x = true) ->
  (forall x, In x l -> p x = true -> q x = false) ->
  Permutation (List.filter p l ++ List.filter q l) l.
Proof.
  induction l as [|x l IH]; intros Hor Hex; simpl; [reflexivity|].
  assert (IH' : Permutation (List.filter p l ++ List.filter q l) l)
    by (apply IH; intros y Hy; [apply Hor|apply Hex]; now right).
  destruct (p x) eqn:Ep.
  - rewrite (Hex x (or_introl eq_refl) Ep). simpl. now apply perm_skip.
  - destruct (Hor x (or_introl eq_refl)) as [|Eq]; [congruence|]. rewrite Eq.
    rewrite <- Permutation_middle. now apply perm_skip.
Qed.

Lemma prefix_yellow_not_green (t : string) :
  String.prefix "yellow_" t = true -> String.prefix "green_" t = false.
Proof.
  destruct t as [|c t]; [discriminate|]. intros H. cbn [String.prefix] in H.
  destruct (ascii_dec "y" c) as [<-|]; [reflexivity|discriminate].
Qed.

Lemma concat_map_perm {B C} (f : B -> list C) (l l' : list B) :
  Permutation l l' -> Permutation (concat (map f l)) (concat (map f l')).
Proof.
  induction 1 as [|x l l' _ IH|x y l|l l' l'' _ IH1 _ IH2]; simpl.
  - reflexivity.
  - now apply Permutation_app_head.
  - rewrite !app_assoc. apply Permutation_app_tail, Permutation_app_comm.
  - now rewrite IH1.
Qed.

Lemma not_in_union_names (t n1 n2 n3 : string) :
  ~ In t [n1; n2; n3] -> t <> n1 /\ t <> n2 /\ t <> n3.
Proof. intros H. repeat split; intros ->; apply H; simpl; tauto. Qed.

Section Consolidation.
Context {A : Type} (get : table -> option (list A)) (mk : list A -> table).
Context (n1 n2 n3 : string) (l1 l2 : list string) (con : db).
Hypothesis Hnames : forall t, In t (l1 ++ l2) -> ~ In t [n1; n2; n3] /\ readable get con t.
Hypothesis Hne : l1 ++ l2 <> [].

Let run (c : db) : result db :=
  bind (make_union_table get mk n1 l1 c) (fun con1 =>
  bind (make_union_table get mk n2 l2 con1) (fun con2 =>
  make_union_table get mk n3 (l1 ++ l2) con2)).

(** Running the unions twice gives the same view the second time. *)
Lemma unions_rerun :
  exists con',
    run con = Ok con'
    /\ con' !! n3 = Some (mk (concat (map (rows_in get con) (l1 ++ l2))))
    /\ exists con'', run con' = Ok con''
       /\ con'' !! n3 = Some (mk (concat (map (rows_in get con) (l1 ++ l2)))).
Proof.
  assert (H1 : forall t, In t (l1 ++ l2) -> t <> n1 /\ t <> n2 /\ t <> n3 /\ readable get con t).
  { intros t Hin. destruct (Hnames t Hin) as [Hn Hr].
    destruct (not_in_union_names t n1 n2 n3 Hn) as (? & ? & ?). auto. }
  destruct (three_unions get mk n1 n2 n3 l1 l2 con H1 Hne) as (con' & E & L & K).
  exists con'. split; [exact E|]. split; [exact L|].
  assert (Hsame : forall t, In t (l1 ++ l2) -> con' !! t = con !! t).
  { intros t Hin. destruct (H1 t Hin) as (? & ? & ? & _). now apply K. }
  destruct (three_unions get mk n1 n2 n3 l1 l2 con') as (con'' & E' & L' & _).
  { intros t Hin. destruct (H1 t Hin) as (? & ? & ? & (tb & rows & Hl & Hg)).
    repeat split; auto. exists tb, rows. now rewrite Hsame. }
  { exact Hne. }
  exists con''. split; [exact E'|]. rewrite L'. do 3 f_equal.
  apply map_ext_in. intros t Hin. unfold rows_in. now rewrite Hsame.
Qed.
End Consolidation.

(** [C7] Both [build_unions] (transform.py over enriched partitions,
    clean.py over cleaned ones) build the all-cabs view as the plain
    concatenation of the partitions: for a non-empty list of partitions
    named as the scripts name them (cab prefix yellow_ or green_), the view's
    rows are a permutation of the concatenated partition rows, with no
    deduplication; running the consolidation again yields the same rows. *)
Theorem consolidation_is_concatenation :
  (forall (con : db) (tables : list string),
     tables <> [] ->
     (forall t, In t tables -> ~ In t union_names_transform /\ readable get_enriched con t
                 /\ (String.prefix "yellow_" t = true \/ String.prefix "green_" t = true)) ->
     exists con', transform_build_unions con tables = Ok con'
       /\ exists rows, con' !! "all_trips_transformed_2015_2024"%string = Some (TEnriched rows)
       /\ Permutation rows (concat (map (rows_in get_enriched con) tables))
       /\ exists con'', transform_build_unions con' tables = Ok con''
          /\ con'' !! "all_trips_transformed_2015_2024"%string = Some (TEnriched rows))
  /\ (forall (con : db) (pairs : list (string * string)),
     pairs <> [] ->
     (forall p, In p pairs -> ~ In (snd p) union_names_clean /\ readable get_trips con (snd p)
                 /\ (String.prefix "yellow_" (fst p) = true \/ String.prefix "green_" (fst p) = true)) ->
     exists con', clean_build_unions con pairs = Ok con'
       /\ exists rows, con' !! "all_trips_clean_2015_2024"%string = Some (TTrips rows)
       /\ Permutation rows (concat (map (rows_in get_trips con) (map snd pairs)))
       /\ exists con'', clean_build_unions con' pairs = Ok con''
          /\ con'' !! "all_trips_clean_2015_2024"%string = Some (TTrips rows)).
Proof.
  split.
  - intros con tables Hne Ht.
    assert (Hperm : Permutation (List.filter (String.prefix "yellow_") tables
                                 ++ List.filter (String.prefix "green_") tables) tables).
    { apply filter_partition_perm; intros t Hin; [apply (Ht t Hin)|].
      apply prefix_yellow_not_green. }
    destruct (unions_rerun get_enriched TEnriched
                "yellow_trips_transformed_all" "green_trips_transformed_all"
                "all_trips_transformed_2015_2024"
                (List.filter (String.prefix "yellow_") tables)
                (List.filter (String.prefix "green_") tables) con)
      as (con' & E & L & con'' & E' & L').
    + intros t Hin. destruct (Ht t (Permutation_in _ Hperm Hin)) as (? & ? & _). now split.
    + intros H. rewrite H in Hperm. apply Permutation_nil in Hperm. congruence.
    + exists con'. split; [exact E|].
      eexists. split; [exact L|]. split.
      * now apply concat_map_perm.
      * exists con''. split; [exact E'|exact L'].
  - intros con pairs Hne Ht.
    set (py := fun p : string * string => String.prefix "yellow_" (fst p)).
    set (pg := fun p : string * string => String.prefix "green_" (fst p)).
    assert (Hperm : Permutation (map snd (List.filter py pairs) ++ map snd (List.filter pg pairs))
                                (map snd pairs)).
    { rewrite <- map_app. apply Permutation_map.
      apply filter_partition_perm; intros p Hin; [apply (Ht p Hin)|].
      apply prefix_yellow_not_green. }
    destruct (unions_rerun get_trips TTrips
                "yellow_trips_clean_all" "green_trips_clean_all" "all_trips_clean_2015_2024"
                (map snd (List.filter py pairs)) (map snd (List.filter pg pairs)) con)
      as (con' & E & L & con'' & E' & L').
    + intros t Hin. apply (Permutation_in _ Hperm), in_map_iff in Hin as (p & <- & Hp).
      destruct (Ht p Hp) as (? & ? & _). now split.
    + intros H. rewrite H in Hperm. apply Permutation_nil in Hperm.
      destruct pairs; simpl in Hperm; congruence.
    + exists con'. split; [exact E|].
      eexists. split; [exact L|]. split.
      * now apply concat_map_perm.
      * exists con''. split; [exact E'|exact L'].
Qed.

Lemma consolidation_is_concatenation_witness :
  (exists con', transform_build_unions db_partitions transformed_tables_ex = Ok con'
     /\ exists rows, con' !! "all_trips_transformed_2015_2024"%string = Some (TEnriched rows)
     /\ Permutation rows (concat (map (rows_in get_enriched db_partitions) transformed_tables_ex))
     /\ exists con'', transform_build_unions con' transformed_tables_ex = Ok con''
        /\ con'' !! "all_trips_transformed_2015_2024"%string = Some (TEnriched rows))
  /\ (exists con', clean_build_unions db_partitions cleaned_pairs_ex = Ok con'
     /\ exists rows, con' !! "all_trips_clean_2015_2024"%string = Some (TTrips rows)
     /\ Permutation rows (concat (map (rows_in get_trips db_partitions) (map snd cleaned_pairs_ex)))
     /\ exists con'', clean_build_unions con' cleaned_pairs_ex = Ok con''
        /\ con'' !! "all_trips_clean_2015_2024"%string = Some (TTrips rows)).
Proof.
  split.
  - apply (proj1 consolidation_is_concatenation); [discriminate|].
    intros t Hin. destruct Hin as [<-|[<-|[]]]; (split; [simpl; intuition discriminate|]);
      (split; [eexists _, _; split; vm_compute; reflexivity|]); vm_compute; auto.
  - apply (proj2 consolidation_is_concatenation); [discriminate|].
    intros p Hin. destruct Hin as [<-|[<-|[]]]; (split; [simpl; intuition discriminate|]);
      (split; [eexists _, _; split; vm_compute; reflexivity|]); vm_compute; auto.
Defined.

(** ** Verification, summary and re-runs (clean.py) *)

Lemma filter_id_in {A} (f : A -> bool) (l : list A) :
  (forall x, In x l -> f x = true) -> List.filter f l = l.
Proof.
  induction l as [|x l IH]; intros H; simpl; [reflexivity|].
  rewrite (H x (or_introl eq_refl)), IH; [reflexivity|]. intros y Hy. apply H. now right.
Qed.

Lemma filter_nil_in {A} (f : A -> bool) (l : list A) :
  (forall x, In x l -> f x = false) -> List.filter f l = [].
Proof.
  induction l as [|x l IH]; intros H; simpl; [reflexivity|].
  rewrite (H x (or_introl eq_refl)). apply IH. intros y Hy. apply H. now right.
Qed.

(** On a list without not-distinct pairs, [distinct_by] keeps every row. *)
Lemma distinct_by_id {A} (eqb : A -> A -> bool) (l : list A) :
  ForallOrdPairs (fun a b => eqb a b = false) l -> distinct_by eqb l = l.
Proof.
  induction 1 as [|a l Ha _ IH]; simpl; [reflexivity|].
  rewrite IH, filter_id_in; [reflexivity|].
  intros y Hy. rewrite List.Forall_forall in Ha. now rewrite (Ha y Hy).
Qed.

Lemma length_distinct_by {A} (eqb : A -> A -> bool) (l : list A) :
  (length (distinct_by eqb l) <= length l)%nat.
Proof.
  induction l as [|x l IH]; simpl; [lia|].
  pose proof (filter_length_le (fun y => negb (eqb x y)) (distinct_by eqb l)). lia.
Qed.

Lemma count_where_zero {A} (cond : A -> option bool) (rows : list A) :
  (forall r, In r rows -> sql_true (cond r) = false) -> count_where cond rows = 0.
Proof. intros H. unfold count_where. now rewrite filter_nil_in. Qed.

Lemma in_clean_query_pred (src : list trip_row) (r : trip_row) :
  In r (clean_query src) -> sql_true (clean_pred r) = true.
Proof. intros Hr. apply in_distinct_by, filter_In in Hr. tauto. Qed.

Lemma clean_query_length (src : list trip_row) : (length (clean_query src) <= length src)%nat.
Proof.
  unfold clean_query. pose proof (filter_length_le (fun r => sql_true (clean_pred r)) src).
  pose proof (length_distinct_by trip_row_eqb (List.filter (fun r => sql_true (clean_pred r)) src)).
  lia.
Qed.

Lemma clean_one_src_ne (con : db) (src dst : string) (con' : db) :
  clean_one con src dst = Ok con' -> src <> dst.
Proof.
  intros H ->. apply clean_one_ok in H as (raw & Hraw & _).
  revert Hraw. unfold select_trip_cols. now rewrite lookup_delete_eq.
Qed.

Lemma select_trip_cols_count (con : db) (src : string) (raw : list trip_row) :
  select_trip_cols con src = Ok raw -> count_rows con src = Ok (Z.of_nat (length raw)).
Proof.
  unfold select_trip_cols, count_rows.
  destruct (con !! src) as [[rows|rows|cols rows]|]; simpl; intros H; inversion H; subst;
    [reflexivity| now rewrite length_map].
Qed.

(** [verify_clean] run on the table [clean_one] has just written reports no
    duplicate, no zero-passenger, no zero-mile, no over-100-mile and no
    over-one-day row: every figure but the row count is 0. *)
Theorem verify_clean_after_clean_one (con : db) (src dst : string) (con' : db) :
  clean_one con src dst = Ok con' ->
  exists rows, con' !! dst = Some (TTrips rows)
    /\ verify_clean con' dst = Ok (mkVerify (Z.of_nat (length rows)) 0 0 0 0 0).
Proof.
  intros H. apply clean_one_ok in H as (raw & _ & ->).
  exists (clean_query raw). rewrite lookup_insert_eq. split; [reflexivity|].
  unfold verify_clean. rewrite lookup_insert_eq. unfold verify_counts.
  rewrite distinct_by_id by apply distinct_by_pairwise.
  rewrite !count_where_zero; [f_equal; f_equal; lia|..]; intros r Hr;
    destruct (clean_pred_sound r (in_clean_query_pred raw r Hr))
      as ((d & Hd & Hd0 & Hd1) & (s & Hs & Hs1) & Hp).
  - rewrite Hs. simpl. unfold MAX_TRIP_SECONDS in *.
    destruct (86400 <? s) eqn:E; [apply Z.ltb_lt in E; lia|reflexivity].
  - unfold q_gt. rewrite Hd. simpl. apply Qle_bool_iff in Hd1. now rewrite Hd1.
  - rewrite Hd. simpl. destruct (Qeq_bool d 0) eqn:E; [|reflexivity].
    apply Qeq_bool_iff in E. rewrite E in Hd0. now apply Qlt_irrefl in Hd0.
  - destruct Hp as [-> | (p & -> & Hp)]; [reflexivity|]. simpl.
    now rewrite (proj2 (Z.eqb_neq p 0) Hp).
Qed.

Lemma verify_clean_after_clean_one_witness :
  exists con', clean_one (db_with factors_by_type) "yellow_trips_2015" "yellow_trips_2015_clean" = Ok con'
  /\ exists rows, con' !! "yellow_trips_2015_clean"%string = Some (TTrips rows)
    /\ verify_clean con' "yellow_trips_2015_clean" = Ok (mkVerify (Z.of_nat (length rows)) 0 0 0 0 0).
Proof.
  eexists. split; [reflexivity|].
  apply (verify_clean_after_clean_one (db_with factors_by_type) "yellow_trips_2015"
           "yellow_trips_2015_clean"). reflexivity.
Defined.

(** After [clean_one], [summarize_before_after] reports the raw table's row
    count as Raw, and a Clean count between 0 and Raw: the printed Removed
    figure is never negative. *)
Theorem summarize_after_clean_one (con : db) (src dst : string) (con' : db) :
  clean_one con src dst = Ok con' ->
  exists raw clean, count_rows con src = Ok raw
    /\ summarize_before_after con' src dst = Ok (raw, clean, raw - clean)
    /\ 0 <= clean <= raw.
Proof.
  intros H. pose proof (clean_one_src_ne _ _ _ _ H) as Hne.
  apply clean_one_ok in H as (rows & Hrows & ->).
  apply select_trip_cols_count in Hrows.
  unfold count_rows in Hrows. rewrite lookup_delete_ne in Hrows by congruence.
  exists (Z.of_nat (length rows)), (Z.of_nat (length (clean_query rows))).
  split; [exact Hrows|]. split.
  - unfold summarize_before_after, count_rows.
    rewrite lookup_insert_ne by congruence. rewrite lookup_delete_ne by congruence.
    destruct (con !! src); inversion Hrows. simpl. now rewrite lookup_insert_eq.
  - pose proof (clean_query_length rows). lia.
Qed.

Lemma summarize_after_clean_one_witness :
  exists con', clean_one (db_with factors_by_type) "yellow_trips_2015" "yellow_trips_2015_clean" = Ok con'
  /\ exists raw clean, count_rows (db_with factors_by_type) "yellow_trips_2015" = Ok raw
    /\ summarize_before_after con' "yellow_trips_2015" "yellow_trips_2015_clean" = Ok (raw, clean, raw - clean)
    /\ 0 <= clean <= raw.
Proof.
  eexists. split; [reflexivity|].
  apply (summarize_after_clean_one (db_with factors_by_type) "yellow_trips_2015"
           "yellow_trips_2015_clean"). reflexivity.
Defined.

(** Cleaning an already cleaned table changes nothing: the cleaning query is
    idempotent. *)
Theorem clean_query_idempotent (src : list trip_row) :
  clean_query (clean_query src) = clean_query src.
Proof.
  unfold clean_query at 1. rewrite filter_id_in.
  - apply distinct_by_id, distinct_by_pairwise.
  - intros r Hr. exact (in_clean_query_pred src r Hr).
Qed.

(** Running [clean_one] again on its own output state leaves the database
    as it is: the DROP and re-CREATE reproduce the same table. *)
Theorem clean_one_rerun (con : db) (src dst : string) (con' : db) :
  clean_one con src dst = Ok con' -> clean_one con' src dst = Ok con'.
Proof.
  intros H. pose proof (clean_one_src_ne _ _ _ _ H) as Hne.
  apply clean_one_ok in H as (raw & Hraw & ->).
  unfold clean_one. rewrite delete_insert_eq, delete_delete_eq, Hraw. reflexivity.
Qed.

Lemma clean_one_rerun_witness :
  exists con', clean_one (db_with factors_by_type) "yellow_trips_2015" "yellow_trips_2015_clean" = Ok con'
  /\ clean_one con' "yellow_trips_2015" "yellow_trips_2015_clean" = Ok con'.
Proof.
  eexists. split; [reflexivity|].
  apply (clean_one_rerun (db_with factors_by_type) "yellow_trips_2015" "yellow_trips_2015_clean").
  reflexivity.
Defined.

(** ** Discovery (clean.py and transform.py) *)

Lemma table_exists_true (con : db) (name : string) :
  table_exists con name = true <-> con !! name <> None.
Proof. unfold table_exists. destruct (con !! name); simpl; split; congruence. Qed.

Lemma discover_src_tables_iff (con : db) (src dst : string) :
  In (src, dst) (discover_src_tables con) <->
  exists cab y, In cab CABS /\ In y YEARS /\ src = (cab ++ "_trips_" ++ pretty y)%string
    /\ dst = (src ++ "_clean")%string /\ con !! src <> None.
Proof.
  unfold discover_src_tables. rewrite in_flat_map. split.
  - intros (cab & Hcab & Hin). apply in_flat_map in Hin as (y & Hy & Hin).
    destruct (table_exists con _) eqn:E; [|destruct Hin].
    destruct Hin as [Hp|[]]. inversion Hp; subst.
    exists cab, y. apply table_exists_true in E. auto.
  - intros (cab & y & Hcab & Hy & -> & -> & Hex). exists cab. split; [exact Hcab|].
    apply in_flat_map. exists y. split; [exact Hy|].
    apply table_exists_true in Hex. rewrite Hex. now left.
Qed.

Lemma discover_cleaned_tables_iff (con : db) (src dst taxi : string) :
  (In (src, dst, taxi) (discover_cleaned_tables con) <->
   exists y, In taxi CABS /\ In y YEARS
     /\ src = (taxi ++ "_trips_" ++ pretty y ++ "_clean")%string
     /\ dst = (taxi ++ "_trips_" ++ pretty y ++ "_transformed")%string
     /\ con !! src <> None)
  /\ (In (src, dst, taxi) (discover_cleaned_tables con) ->
      String.prefix "yellow_" dst = String.eqb taxi "yellow"
      /\ String.prefix "green_" dst = String.eqb taxi "green").
Proof.
  assert (Hiff : In (src, dst, taxi) (discover_cleaned_tables con) <->
    exists y, In taxi CABS /\ In y YEARS
      /\ src = (taxi ++ "_trips_" ++ pretty y ++ "_clean")%string
      /\ dst = (taxi ++ "_trips_" ++ pretty y ++ "_transformed")%string
      /\ con !! src <> None).
  { unfold discover_cleaned_tables. rewrite in_flat_map. split.
    - intros (cab & Hcab & Hin). apply in_flat_map in Hin as (y & Hy & Hin).
      destruct (table_exists con _) eqn:E; [|destruct Hin].
      destruct Hin as [Hp|[]]. inversion Hp; subst.
      exists y. apply table_exists_true in E. auto.
    - intros (y & Hcab & Hy & -> & -> & Hex). exists taxi. split; [exact Hcab|].
      apply in_flat_map. exists y. split; [exact Hy|].
      apply table_exists_true in Hex. rewrite Hex. now left. }
  split; [exact Hiff|].
  intros Hin. apply Hiff in Hin as (y & Hcab & _ & _ & -> & _).
  destruct Hcab as [<-|[<-|[]]]; split; reflexivity.
Qed.

(** ** Reports (analysis.py) *)

Section FirstExtreme.
Context {A : Type} (better : Q -> Q -> bool).
Hypothesis better_irrefl : forall a, better a a = false.
Hypothesis better_not_trans : forall a b c, better a b = false -> better b c = false -> better a c = false.
Hypothesis better_asym : forall a b, better a b = true -> better b a = false.

(** The scan keeps the first row that no row beats. *)
Lemma fold_first_extreme (xs seen : list (A * Q)) (best : A * Q) :
  (exists pre post, seen = pre ++ best :: post /\ forall z, In z pre -> better (snd best) (snd z) = true) ->
  (forall z, In z seen -> better (snd z) (snd best) = false) ->
  (exists pre post, seen ++ xs
      = pre ++ fold_left (fun b y => if better (snd y) (snd b) then y else b) xs best :: post
     /\ forall z, In z pre ->
          better (snd (fold_left (fun b y => if better (snd y) (snd b) then y else b) xs best)) (snd z) = true)
  /\ (forall z, In z (seen ++ xs) ->
        better (snd z) (snd (fold_left (fun b y => if better (snd y) (snd b) then y else b) xs best)) = false).
Proof.
  revert seen best. induction xs as [|y ys IH]; intros seen best Hpre Hall; simpl.
  - rewrite app_nil_r. split; assumption.
  - replace (seen ++ y :: ys) with ((seen ++ [y]) ++ ys) by now rewrite <- app_assoc.
    apply IH.
    + destruct (better (snd y) (snd best)) eqn:E.
      * exists seen, []. split; [reflexivity|].
        intros z Hz. destruct (better (snd y) (snd z)) eqn:E'; [reflexivity|].
        rewrite (better_not_trans _ _ _ E' (Hall z Hz)) in E. discriminate.
      * destruct Hpre as (pre & post & -> & Hp). exists pre, (post ++ [y]).
        split; [now rewrite <- app_assoc|exact Hp].
    + intros z Hz. apply in_app_or in Hz as [Hz|[<-|[]]].
      * destruct (better (snd y) (snd best)) eqn:E; [|exact (Hall z Hz)].
        exact (better_not_trans _ _ _ (Hall z Hz) (better_asym _ _ E)).
      * destruct (better (snd y) (snd best)) eqn:E; [apply better_irrefl|exact E].
Qed.

Lemma first_extreme_spec (df : list (A * Q)) :
  df <> [] ->
  exists r, first_extreme better df = Some r
    /\ (exists pre post, df = pre ++ r :: post /\ forall z, In z pre -> better (snd r) (snd z) = true)
    /\ forall z, In z df -> better (snd z) (snd r) = false.
Proof.
  destruct df as [|x xs]; [congruence|]. intros _. simpl.
  destruct (fold_first_extreme xs [x] x) as [H1 H2].
  - exists [], []. split; [reflexivity|]. intros z [].
  - intros z [<-|[]]. apply better_irrefl.
  - eexists. split; [reflexivity|]. split; [exact H1|exact H2].
Qed.
End FirstExtreme.

(** [heaviest_lightest_month_totals] returns (None, None) on an empty frame;
    otherwise the heaviest row has the largest total and is the first row
    with that total (pandas [idxmax]), and the lightest has the smallest
    total and is the first row with it ([idxmin]). *)
Theorem heaviest_lightest_first_extremes (df : list (option (Z * Z) * Q)) :
  (df = [] -> heaviest_lightest_month_totals df = (None, None))
  /\ (df <> [] -> exists heavy light,
        heaviest_lightest_month_totals df = (Some heavy, Some light)
        /\ (exists pre post, df = pre ++ heavy :: post /\ forall x, In x pre -> (snd x < snd heavy)%Q)
        /\ (forall x, In x df -> (snd x <= snd heavy)%Q)
        /\ (exists pre post, df = pre ++ light :: post /\ forall x, In x pre -> (snd light < snd x)%Q)
        /\ (forall x, In x df -> (snd light <= snd x)%Q)).
Proof.
  split; [now intros ->|]. intros Hne.
  destruct (first_extreme_spec (A := option (Z * Z)) (fun a b => negb (Qle_bool a b))) with (df := df)
    as (h & Eh & (pre & post & Hdf & Hpre) & Hall); [..|exact Hne|].
  { intros a. now rewrite (proj2 (Qle_bool_iff a a) (Qle_refl a)). }
  { intros a b c Hab Hbc. apply negb_false_iff, Qle_bool_iff in Hab, Hbc.
    apply negb_false_iff, Qle_bool_iff. eapply Qle_trans; eassumption. }
  { intros a b Hab. apply negb_true_iff in Hab. apply negb_false_iff, Qle_bool_iff.
    apply Qlt_le_weak, Qnot_le_lt. intros H. apply Qle_bool_iff in H. congruence. }
  destruct (first_extreme_spec (A := option (Z * Z)) (fun a b => negb (Qle_bool b a))) with (df := df)
    as (l & El & (pre' & post' & Hdf' & Hpre') & Hall'); [..|exact Hne|].
  { intros a. now rewrite (proj2 (Qle_bool_iff a a) (Qle_refl a)). }
  { intros a b c Hab Hbc. apply negb_false_iff, Qle_bool_iff in Hab, Hbc.
    apply negb_false_iff, Qle_bool_iff. eapply Qle_trans; eassumption. }
  { intros a b Hab. apply negb_true_iff in Hab. apply negb_false_iff, Qle_bool_iff.
    apply Qlt_le_weak, Qnot_le_lt. intros H. apply Qle_bool_iff in H. congruence. }
  exists h, l. split.
  { unfold heaviest_lightest_month_totals, idxmax, idxmin.
    destruct df; [congruence|]. now rewrite Eh, El. }
  split; [|split; [|split]].
  - exists pre, post. split; [exact Hdf|]. intros x Hx. specialize (Hpre x Hx).
    apply negb_true_iff in Hpre. apply Qnot_le_lt. intros H. apply Qle_bool_iff in H. congruence.
  - intros x Hx. specialize (Hall x Hx). now apply negb_false_iff, Qle_bool_iff in Hall.
  - exists pre', post'. split; [exact Hdf'|]. intros x Hx. specialize (Hpre' x Hx).
    apply negb_true_iff in Hpre'. apply Qnot_le_lt. intros H. apply Qle_bool_iff in H. congruence.
  - intros x Hx. specialize (Hall' x Hx). now apply negb_false_iff, Qle_bool_iff in Hall'.
Qed.

Lemma Sorted_map_mono {B C} (R : B -> B -> Prop) (R' : C -> C -> Prop) (f : B -> C) (l : list B) :
  (forall a b, R a b -> R' (f a) (f b)) -> Sorted R l -> Sorted R' (map f l).
Proof.
  intros Hf. induction 1 as [|a l Hl IH Hhd]; simpl; constructor; [exact IH|].
  destruct Hhd; simpl; constructor. now apply Hf.
Qed.

Lemma sorted_leb_nodup_lt (l : list Z) :
  Sorted (fun a b => (a <=? b) = true) l -> List.NoDup l -> Sorted Z.lt l.
Proof.
  induction 1 as [|a l Hl IH Hhd]; intros Hnd; constructor.
  - apply IH. now inversion Hnd.
  - destruct Hhd as [|b l' Hab]; constructor. inversion Hnd; subst. apply Z.leb_le in Hab.
    assert (a <> b) by (intros ->; match goal with H : ~ In b _ |- _ => apply H; now left end).
    lia.
Qed.

(** GROUP BY an integer key, ORDER BY it: each key once, ascending. *)
Lemma group_by_Z_sorted (agg : list Q -> Q) (pairs : list (Z * Q)) :
  Sorted Z.lt (map fst (group_by Z.eqb Z.leb agg pairs)).
Proof.
  rewrite group_by_keys. apply sorted_leb_nodup_lt.
  - apply sort_by_sorted. intros a b H. apply Z.leb_gt in H. apply Z.leb_le. lia.
  - eapply Permutation.Permutation_NoDup; [symmetry; apply sort_by_perm|].
    apply distinct_by_NoDup. intros a b. apply Z.eqb_eq.
Qed.

(** The hour table labels every row with a report hour in 1..24; when the
    view's hour_of_day values are in 0..23 (as EXTRACT('hour') gives), the
    label is the bucket plus one and the labels are strictly ascending, so no
    hour appears twice. *)
Theorem hour_report_labels (v : list enriched_row) :
  (forall h q, In (h, q) (hour_report v) -> 1 <= h <= 24)
  /\ ((forall e h, In e v -> hour_of_day e = Some h -> 0 <= h < 24) ->
      map fst (hour_report v) = map (fun h => h + 1) (map fst (avg_by_bucket v HourOfDay))
      /\ Sorted Z.lt (map fst (hour_report v))).
Proof.
  split.
  - intros h q Hin. unfold hour_report in Hin. apply in_map_iff in Hin as ([b a] & Heq & _).
    simpl in Heq. inversion Heq; subst. pose proof (Z.mod_pos_bound b 24). lia.
  - intros Hv.
    assert (Hk : forall b, In b (map fst (avg_by_bucket v HourOfDay)) -> 0 <= b < 24).
    { intros b Hb. apply in_map_iff in Hb as ([b' a] & <- & Hin). simpl.
      unfold avg_by_bucket in Hin.
      apply group_by_key_from_input in Hin as (c & Hin). apply in_omap in Hin as (e & He & Hf).
      simpl in Hf. destruct (hour_of_day e) eqn:Eh, (trip_co2_kgs e); try discriminate.
      inversion Hf; subst. eapply Hv; eauto. }
    assert (Heq : map fst (hour_report v) = map (fun h => h + 1) (map fst (avg_by_bucket v HourOfDay))).
    { unfold hour_report. rewrite !map_map. apply map_ext_in. intros [b a] Hin. simpl.
      rewrite Z.mod_small; [reflexivity|]. apply Hk. apply in_map_iff. exists (b, a). auto. }
    split; [exact Heq|]. rewrite Heq.
    eapply Sorted_map_mono; [|apply group_by_Z_sorted]. intros; lia.
Qed.

Lemma hour_report_labels_witness :
  (forall h q, In (h, q) (hour_report view_jan_mar) -> 1 <= h <= 24)
  /\ map fst (hour_report view_jan_mar) = map (fun h => h + 1) (map fst (avg_by_bucket view_jan_mar HourOfDay))
  /\ Sorted Z.lt (map fst (hour_report view_jan_mar)).
Proof.
  destruct (hour_report_labels view_jan_mar) as [H1 H2]. split; [exact H1|].
  apply H2. intros e h He Hh. destruct He as [<-|[<-|[<-|[]]]]; vm_compute in Hh; inversion Hh; lia.
Defined.

(** ** Sums over GROUP BY *)

Lemma Qsum_map_ext {B} (f g : B -> Q) (l : list B) :
  (forall x, In x l -> f x == g x) -> Qsum (map f l) == Qsum (map g l).
Proof.
  induction l as [|x l IH]; intros H; simpl; [reflexivity|].
  rewrite (H x (or_introl eq_refl)), IH; [reflexivity|]. intros y Hy. apply H. now right.
Qed.

Lemma Qsum_map_plus {B} (f g : B -> Q) (l : list B) :
  (Qsum (map (fun x => f x + g x) l) == Qsum (map f l) + Qsum (map g l))%Q.
Proof. induction l as [|x l IH]; simpl; [reflexivity|]. rewrite IH. ring. Qed.

Lemma Qsum_perm (l l' : list Q) : Permutation l l' -> Qsum l == Qsum l'.
Proof.
  induction 1 as [|x l l' _ IH|x y l|l l' l'' _ IH1 _ IH2]; simpl.
  - reflexivity.
  - now rewrite IH.
  - ring.
  - now rewrite IH1.
Qed.

Lemma omap_cons_eq {B C} (f : B -> option C) (x : B) (l : list B) :
  omap f (x :: l) = match f x with Some y => y :: omap f l | None => omap f l end.
Proof. reflexivity. Qed.

Lemma Qsum_cons (a : Q) (l : list Q) : Qsum (a :: l) = (a + Qsum l)%Q.
Proof. reflexivity. Qed.

Lemma Qsum_zero {B} (l : list B) : (Qsum (map (fun _ => 0) l) == 0)%Q.
Proof.
  induction l as [|x l IH]; [reflexivity|]. unfold Qsum in *. cbn [map fold_right].
  rewrite IH. reflexivity.
Qed.

Section GroupSum.
Context {K : Type} (keqb kleb : K -> K -> bool).
Hypothesis Heqb : forall a b, keqb a b = true <-> a = b.

Lemma Qsum_indicator (ks : list K) (x : K) (c : Q) :
  List.NoDup ks -> In x ks -> (Qsum (map (fun k => if keqb k x then c else 0) ks) == c)%Q.
Proof.
  induction ks as [|k ks IH]; intros Hnd Hin; [destruct Hin|]. inversion Hnd; subst.
  cbn [map]. rewrite Qsum_cons. destruct (keqb k x) eqn:E.
  - apply Heqb in E. subst.
    rewrite (Qsum_map_ext _ (fun _ => 0%Q)).
    + rewrite Qsum_zero. ring.
    + intros y Hy. destruct (keqb y x) eqn:E'; [|reflexivity]. apply Heqb in E'. congruence.
  - destruct Hin as [->|Hin].
    + assert (keqb x x = true) by now apply Heqb. congruence.
    + rewrite (IH H2 Hin). ring.
Qed.

(** Summing weighted group totals over the distinct keys sums the weighted
    input. *)
Lemma sum_over_keys (phi : K -> Q) (pairs : list (K * Q)) (ks : list K) :
  List.NoDup ks -> (forall p, In p pairs -> In (fst p) ks) ->
  (Qsum (map (fun k => phi k * Qsum (map snd (List.filter (fun p => keqb k (fst p)) pairs))) ks)
   == Qsum (map (fun p => phi (fst p) * snd p) pairs))%Q.
Proof.
  intros Hnd. induction pairs as [|p ps IH]; intros Hcov.
  - simpl. rewrite (Qsum_map_ext _ (fun _ => 0%Q)).
    + apply Qsum_zero.
    + intros k _. simpl. ring.
  - transitivity (Qsum (map (fun k => (if keqb k (fst p) then phi (fst p) * snd p else 0)
        + phi k * Qsum (map snd (List.filter (fun q => keqb k (fst q)) ps))) ks))%Q.
    + apply Qsum_map_ext. intros k _. cbn [List.filter]. destruct (keqb k (fst p)) eqn:E.
      * apply Heqb in E. rewrite E. cbn [map]. rewrite Qsum_cons. ring.
      * ring.
    + rewrite Qsum_map_plus, IH by (intros q Hq; apply Hcov; now right).
      rewrite (Qsum_indicator ks (fst p) _ Hnd (Hcov p (or_introl eq_refl))).
      cbn [map]. rewrite Qsum_cons. ring.
Qed.

Lemma group_by_weighted (kagg : list Q -> Q) (phi : K -> Q) (pairs : list (K * Q)) :
  (forall l, kagg l = Qsum l) ->
  (Qsum (map (fun kq => phi (fst kq) * snd kq) (group_by keqb kleb kagg pairs))
   == Qsum (map (fun p => phi (fst p) * snd p) pairs))%Q.
Proof.
  intros Hagg. unfold group_by. rewrite map_map. simpl.
  rewrite (Qsum_perm _ _ (Permutation_map _ (sort_by_perm kleb _))).
  rewrite (Qsum_map_ext _ (fun k => phi k * Qsum (map snd (List.filter (fun p => keqb k (fst p)) pairs)))%Q)
    by (intros k _; now rewrite Hagg).
  apply sum_over_keys.
  - now apply distinct_by_NoDup.
  - intros p Hp. apply (in_distinct_by_iff keqb Heqb). now apply in_map.
Qed.
End GroupSum.

Lemma Qsum_map_one {B} (l : list (B * Q)) : (Qsum (map (fun p => 1 * snd p) l) == Qsum (map snd l))%Q.
Proof. apply Qsum_map_ext. intros x _. ring. Qed.

(** The monthly totals add up to the CO2 of all trips of the view with a
    non-NULL trip_co2_kgs: grouping by month loses and duplicates nothing. *)
Theorem monthly_totals_conserve (v : list enriched_row) :
  Qsum (map snd (monthly_totals_full v)) == Qsum (omap trip_co2_kgs v).
Proof.
  unfold monthly_totals_full. rewrite <- Qsum_map_one.
  rewrite (group_by_weighted ym_eqb ym_leb ym_eqb_iff Qsum (fun _ => 1%Q)) by reflexivity.
  rewrite Qsum_map_one. induction v as [|e v IH]; simpl; [reflexivity|].
  destruct (trip_co2_kgs e); simpl; [rewrite IH|exact IH]. reflexivity.
Qed.

(** The yearly plot's totals (to_yearly on the monthly totals) add up to the
    CO2 of the trips picked up in 2015..2024; every plotted year lies in that
    range, each once, ascending. *)
Theorem yearly_totals_conserve (v : list enriched_row) :
  Qsum (map snd (to_yearly (Some (monthly_totals_full v))))
  == Qsum (omap (fun e => match e_pickup_datetime e, trip_co2_kgs e with
                          | Some t, Some c =>
                              if (2015 <=? ts_year t) && (ts_year t <=? 2024) then Some c else None
                          | _, _ => None
                          end) v)
  /\ (forall y q, In (y, q) (to_yearly (Some (monthly_totals_full v))) -> 2015 <= y <= 2024)
  /\ Sorted Z.lt (map fst (to_yearly (Some (monthly_totals_full v)))).
Proof.
  set (phi := fun k : option (Z * Z) => match k with
                | Some (y, _) => if (2015 <=? y) && (y <=? 2024) then 1%Q else 0%Q
                | None => 0%Q end).
  split; [|split].
  - unfold to_yearly. rewrite <- Qsum_map_one.
    rewrite (group_by_weighted Z.eqb Z.leb (fun a b => Z.eqb_eq a b) Qsum (fun _ => 1%Q)) by reflexivity.
    rewrite Qsum_map_one.
    transitivity (Qsum (map (fun p => phi (fst p) * snd p)%Q (monthly_totals_full v))).
    + generalize (monthly_totals_full v). intros l. induction l as [|[k q] l IH]; simpl; [reflexivity|].
      destruct k as [[y m]|]; simpl; [|rewrite IH; ring].
      destruct ((2015 <=? y) && (y <=? 2024)); simpl; rewrite IH; ring.
    + unfold monthly_totals_full.
      rewrite (group_by_weighted ym_eqb ym_leb ym_eqb_iff Qsum phi) by reflexivity.
      induction v as [|e v IH]; [reflexivity|].
      rewrite !omap_cons_eq. unfold ym_key at 1.
      destruct (trip_co2_kgs e) as [q|], (e_pickup_datetime e) as [t|];
        cbn [option_map map fst snd]; rewrite ?Qsum_cons, IH; unfold phi, extract_year; try ring.
      destruct ((2015 <=? ts_year t) && (ts_year t <=? 2024)); rewrite ?Qsum_cons; ring.
  - intros y q Hin. unfold to_yearly in Hin.
    apply group_by_key_from_input in Hin as (c & Hin). apply in_omap in Hin as ([k q'] & _ & Hf).
    simpl in Hf. destruct k as [[y' m]|]; [|discriminate].
    destruct ((2015 <=? y') && (y' <=? 2024)) eqn:E; [|discriminate]. inversion Hf; subst.
    apply andb_true_iff in E as [E1 E2]. apply Z.leb_le in E1, E2. lia.
  - apply group_by_Z_sorted.
Qed.

Lemma heaviest_lightest_first_extremes_witness :
  heaviest_lightest_month_totals [] = (None, None)
  /\ exists heavy light,
    heaviest_lightest_month_totals [(Some (2015, 1), 2%Q); (Some (2015, 2), 5%Q); (Some (2015, 3), 5%Q)]
      = (Some heavy, Some light)
    /\ (exists pre post, [(Some (2015, 1), 2%Q); (Some (2015, 2), 5%Q); (Some (2015, 3), 5%Q)]
          = pre ++ heavy :: post /\ forall x, In x pre -> (snd x < snd heavy)%Q)
    /\ (forall x, In x [(Some (2015, 1), 2%Q); (Some (2015, 2), 5%Q); (Some (2015, 3), 5%Q)] ->
          (snd x <= snd heavy)%Q)
    /\ (exists pre post, [(Some (2015, 1), 2%Q); (Some (2015, 2), 5%Q); (Some (2015, 3), 5%Q)]
          = pre ++ light :: post /\ forall x, In x pre -> (snd light < snd x)%Q)
    /\ (forall x, In x [(Some (2015, 1), 2%Q); (Some (2015, 2), 5%Q); (Some (2015, 3), 5%Q)] ->
          (snd light <= snd x)%Q).
Proof.
  split.
  - apply (heaviest_lightest_first_extremes []). reflexivity.
  - apply (heaviest_lightest_first_extremes
             [(Some (2015, 1), 2%Q); (Some (2015, 2), 5%Q); (Some (2015, 3), 5%Q)]).
    discriminate.
Defined.

(** ** Calendar buckets *)

Lemma iso_weeks_in_year_range (y : Z) : 52 <= iso_weeks_in_year y <= 53.
Proof. unfold iso_weeks_in_year. destruct (_ || _); lia. Qed.

Lemma extract_week_range (t : timestamp) : 1 <= extract_week t <= 53.
Proof.
  unfold extract_week. cbv zeta.
  destruct (_ <? 1) eqn:E1; [pose proof (iso_weeks_in_year_range (ts_year t - 1)); lia|].
  destruct (iso_weeks_in_year (ts_year t) <? _) eqn:E2; [lia|].
  apply Z.ltb_ge in E1, E2. pose proof (iso_weeks_in_year_range (ts_year t)). lia.
Qed.

Lemma bucket_of_transform (base : list trip_row) (ve : list (option Q)) (c : bucket_col) (b : Z) (q : Q) :
  In (b, q) (avg_by_bucket (transform_query base ve) c) ->
  exists r g, In r base /\ bucket_value c (enrich_row r g) = Some b.
Proof.
  intros Hin. unfold avg_by_bucket in Hin.
  apply group_by_key_from_input in Hin as (x & Hin). apply in_omap in Hin as (e & He & Hf).
  unfold transform_query in He. apply in_flat_map in He as (r & Hr & He).
  apply in_map_iff in He as (g & <- & _). exists r, g. split; [exact Hr|].
  destruct (bucket_value c (enrich_row r g)); [|discriminate].
  destruct (trip_co2_kgs (enrich_row r g)); inversion Hf; subst; reflexivity.
Qed.

(** In the reports on a transformed table, every day-of-week bucket has a
    name in DAY_NAMES and every week bucket lies in 1..53; when the pickup
    months are valid (1..12), every month bucket has a name in MONTH_NAMES.
    So pandas' [map] never produces a missing name. *)
Theorem calendar_buckets_named (base : list trip_row) (ve : list (option Q)) :
  (forall b q, In (b, q) (avg_by_bucket (transform_query base ve) DayOfWeek) ->
     name_of DAY_NAMES b <> None)
  /\ (forall b q, In (b, q) (avg_by_bucket (transform_query base ve) WeekOfYear) -> 1 <= b <= 53)
  /\ ((forall r t, In r base -> pickup_datetime r = Some t -> 1 <= ts_month t <= 12) ->
      forall b q, In (b, q) (avg_by_bucket (transform_query base ve) MonthOfYear) ->
        name_of MONTH_NAMES b <> None).
Proof.
  split; [|split].
  - intros b q Hin. apply bucket_of_transform in Hin as (r & g & _ & Hb).
    simpl in Hb. destruct (pickup_datetime r) as [t|]; [|discriminate]. inversion Hb; subst.
    unfold extract_dow. pose proof (Z.mod_pos_bound (ts_days t + 4) 7).
    assert (Hcases : forall d, 0 <= d < 7 -> name_of DAY_NAMES d <> None)
      by (intros d Hd; assert (d = 0 \/ d = 1 \/ d = 2 \/ d = 3 \/ d = 4 \/ d = 5 \/ d = 6) as Hd' by lia;
          repeat destruct Hd' as [->|Hd']; subst; discriminate).
    apply Hcases. lia.
  - intros b q Hin. apply bucket_of_transform in Hin as (r & g & _ & Hb).
    simpl in Hb. destruct (pickup_datetime r) as [t|]; [|discriminate]. inversion Hb; subst.
    apply extract_week_range.
  - intros Hm b q Hin. apply bucket_of_transform in Hin as (r & g & Hr & Hb).
    simpl in Hb. destruct (pickup_datetime r) as [t|] eqn:Et; [|discriminate]. inversion Hb; subst.
    specialize (Hm r t Hr Et). unfold extract_month.
    assert (Hcases : forall m, 1 <= m <= 12 -> name_of MONTH_NAMES m <> None)
      by (intros m Hm'; assert (m = 1 \/ m = 2 \/ m = 3 \/ m = 4 \/ m = 5 \/ m = 6 \/ m = 7 \/ m = 8
                                \/ m = 9 \/ m = 10 \/ m = 11 \/ m = 12) as Hd' by lia;
          repeat destruct Hd' as [->|Hd']; subst; discriminate).
    now apply Hcases.
Qed.

Lemma calendar_buckets_named_witness :
  (forall b q, In (b, q) (avg_by_bucket (transform_query [yellow_trip 10 ts_a ts_b] [Some 400%Q]) DayOfWeek) ->
     name_of DAY_NAMES b <> None)
  /\ (forall b q, In (b, q) (avg_by_bucket (transform_query [yellow_trip 10 ts_a ts_b] [Some 400%Q]) WeekOfYear) ->
        1 <= b <= 53)
  /\ (forall b q, In (b, q) (avg_by_bucket (transform_query [yellow_trip 10 ts_a ts_b] [Some 400%Q]) MonthOfYear) ->
        name_of MONTH_NAMES b <> None).
Proof.
  destruct (calendar_buckets_named [yellow_trip 10 ts_a ts_b] [Some 400%Q]) as (H1 & H2 & H3).
  split; [exact H1|]. split; [exact H2|]. apply H3.
  intros r t [<-|[]] Ht. vm_compute in Ht. inversion Ht; subst. simpl. lia.
Defined.

(** When no row of the view has a trip_co2_kgs, the largest-trip query
    returns no row (so [analyze_cab] prints no largest trip). *)
Theorem get_max_trip_all_null (v : list enriched_row) :
  (forall e, In e v -> trip_co2_kgs e = None) ->
  get_max_trip v [] /\ forall out, get_max_trip v out -> out = [].
Proof.
  intros Hv.
  assert (Hf : List.filter (fun e => is_not_null (trip_co2_kgs e)) v = [])
    by (apply filter_nil_in; intros e He; now rewrite (Hv e He)).
  split.
  - exists []. rewrite Hf. split; [constructor|]. split; [constructor|reflexivity].
  - intros out (ordered & Hp & _ & ->). rewrite Hf in Hp. apply Permutation_nil in Hp. now subst.
Qed.

Lemma get_max_trip_all_null_witness :
  get_max_trip [mkEnriched None None None None None None None None None None None None] []
  /\ forall out, get_max_trip [mkEnriched None None None None None None None None None None None None] out ->
       out = [].
Proof. apply get_max_trip_all_null. intros e [<-|[]]. reflexivity. Defined.

(** ** clean.py [main] *)

Lemma select_trip_cols_other (con : db) (s k : string) (t : table) :
  s <> k -> select_trip_cols (<[k := t]> (delete k con)) s = select_trip_cols con s.
Proof.
  intros Hne. unfold select_trip_cols.
  rewrite lookup_insert_ne by congruence. now rewrite lookup_delete_ne by congruence.
Qed.

Lemma clean_loop_ok (pairs : list (string * string)) : forall (con : db) acc,
  List.NoDup (map snd pairs) ->
  (forall p q, In p pairs -> In q pairs -> fst p <> snd q) ->
  (forall p, In p pairs -> exists raw, select_trip_cols con (fst p) = Ok raw) ->
  exists con', clean_loop con pairs acc = (con', None, acc ++ pairs)
    /\ (forall p, In p pairs -> exists raw, select_trip_cols con (fst p) = Ok raw
                                 /\ con' !! snd p = Some (TTrips (clean_query raw)))
    /\ (forall t, ~ In t (map snd pairs) -> con' !! t = con !! t).
Proof.
  induction pairs as [|[src dst] rest IH]; intros con acc Hnd Hsd Hrd.
  - exists con. rewrite app_nil_r. split; [reflexivity|]. split; [intros p []|]. auto.
  - inversion Hnd as [|? ? Hnotin Hnd']; subst.
    assert (Hne : src <> dst) by exact (Hsd (src, dst) (src, dst) (or_introl eq_refl) (or_introl eq_refl)).
    destruct (Hrd (src, dst) (or_introl eq_refl)) as (raw & Hraw). simpl in Hraw.
    set (con1 := <[dst := TTrips (clean_query raw)]> (delete dst con)).
    assert (Hstep : clean_one_st con src dst = (con1, None)).
    { unfold clean_one_st.
      assert (Hd : select_trip_cols (delete dst con) src = Ok raw)
        by (unfold select_trip_cols in *; now rewrite lookup_delete_ne by congruence).
      now rewrite Hd. }
    assert (Hsel1 : select_trip_cols con1 src = Ok raw) by (unfold con1; now rewrite select_trip_cols_other).
    assert (Hsum : summarize_before_after con1 src dst
                   = Ok (Z.of_nat (length raw), Z.of_nat (length (clean_query raw)),
                         Z.of_nat (length raw) - Z.of_nat (length (clean_query raw)))).
    { unfold summarize_before_after. rewrite (select_trip_cols_count _ _ _ Hsel1). simpl.
      unfold count_rows, con1. now rewrite lookup_insert_eq. }
    assert (Hver : exists rep, verify_clean con1 dst = Ok rep).
    { unfold verify_clean, con1. rewrite lookup_insert_eq. eexists. reflexivity. }
    destruct Hver as (rep & Hver).
    destruct (IH con1 (acc ++ [(src, dst)])) as (con' & E & H1 & H2).
    + exact Hnd'.
    + intros p q Hp Hq. apply Hsd; now right.
    + intros p Hp. destruct (Hrd p (or_intror Hp)) as (r & Hr). exists r. unfold con1.
      rewrite select_trip_cols_other; [exact Hr|].
      exact (Hsd p (src, dst) (or_intror Hp) (or_introl eq_refl)).
    + exists con'. split; [|split].
      * simpl. rewrite Hstep, Hsum, Hver, E. now rewrite <- app_assoc.
      * intros p [<-|Hp].
        -- exists raw. split; [exact Hraw|]. simpl. rewrite (H2 dst Hnotin).
           unfold con1. now rewrite lookup_insert_eq.
        -- destruct (H1 p Hp) as (r & Hr & Hl). exists r. split; [|exact Hl].
           unfold con1 in Hr. rewrite select_trip_cols_other in Hr; [exact Hr|].
           exact (Hsd p (src, dst) (or_intror Hp) (or_introl eq_refl)).
      * intros t Ht. rewrite H2 by (intros Hin; apply Ht; now right).
        unfold con1. rewrite lookup_insert_ne by (intros ->; apply Ht; now left).
        rewrite lookup_delete_ne by (intros ->; apply Ht; now left). reflexivity.
Qed.

Lemma discover_src_tables_filter (con : db) :
  discover_src_tables con = List.filter (fun p => table_exists con (fst p)) src_candidates.
Proof.
  unfold discover_src_tables, src_candidates. generalize YEARS as ys. generalize CABS as cs.
  induction cs as [|c cs IH]; intros ys; [reflexivity|].
  cbn [flat_map]. rewrite List.filter_app, IH. f_equal.
  induction ys as [|y ys IHy]; [reflexivity|]. cbn [flat_map map List.filter fst].
  destruct (table_exists con _); simpl; now rewrite IHy.
Qed.

Lemma NoDup_map_filter {B C} (g : B -> C) (f : B -> bool) (l : list B) :
  List.NoDup (map g l) -> List.NoDup (map g (List.filter f l)).
Proof.
  induction l as [|x l IH]; intros Hnd; simpl; [constructor|].
  inversion Hnd as [|? ? Hx Hnd']; subst. destruct (f x); [|auto].
  simpl. constructor; [|auto]. intros Hin. apply Hx.
  apply in_map_iff in Hin as (y & <- & Hy). apply filter_In in Hy as [Hy _].
  now apply in_map.
Qed.

Lemma src_candidates_nodup : List.NoDup (map snd src_candidates).
Proof.
  apply NoDup_ListNoDup. apply (bool_decide_unpack (NoDup (map snd src_candidates))).
  vm_compute. exact I.
Qed.

Lemma src_candidates_facts :
  forall p, In p src_candidates ->
    (forall q, In q src_candidates -> fst p <> snd q) /\ ~ In (snd p) union_names_clean.
Proof.
  assert (Hb : forallb (fun p => forallb (fun q => negb (String.eqb (fst p) (snd q))) src_candidates
                                 && negb (str_mem (snd p) union_names_clean)) src_candidates = true)
    by (vm_compute; reflexivity).
  intros p Hp. rewrite forallb_forall in Hb. apply Hb, andb_prop in Hp as [Hq Hu].
  split.
  - intros q Hq'. rewrite forallb_forall in Hq. specialize (Hq q Hq').
    apply negb_true_iff, String.eqb_neq in Hq. exact Hq.
  - intros Hin. apply negb_true_iff in Hu. unfold str_mem in Hu.
    assert (existsb (String.eqb (snd p)) union_names_clean = true)
      by (apply existsb_exists; exists (snd p); split; [exact Hin|apply String.eqb_refl]).
    congruence.
Qed.

Lemma filter_two_blocks {B} (py pg f : B -> bool) (l1 l2 : list B) :
  (forall x, In x l1 -> py x = true /\ pg x = false) ->
  (forall x, In x l2 -> py x = false /\ pg x = true) ->
  List.filter py (List.filter f (l1 ++ l2)) ++ List.filter pg (List.filter f (l1 ++ l2))
  = List.filter f (l1 ++ l2).
Proof.
  intros H1 H2. rewrite !List.filter_app.
  rewrite (filter_id_in py (List.filter f l1)), (filter_nil_in py (List.filter f l2)),
          (filter_nil_in pg (List.filter f l1)), (filter_id_in pg (List.filter f l2)).
  - now rewrite app_nil_r.
  - intros x Hx. apply filter_In in Hx as [Hx _]. apply (H2 x Hx).
  - intros x Hx. apply filter_In in Hx as [Hx _]. apply (H1 x Hx).
  - intros x Hx. apply filter_In in Hx as [Hx _]. apply (H2 x Hx).
  - intros x Hx. apply filter_In in Hx as [Hx _]. apply (H1 x Hx).
Qed.

Lemma discover_src_tables_split (con : db) :
  List.filter (fun p => String.prefix "yellow_" (fst p)) (discover_src_tables con)
  ++ List.filter (fun p => String.prefix "green_" (fst p)) (discover_src_tables con)
  = discover_src_tables con.
Proof.
  rewrite discover_src_tables_filter. unfold src_candidates at 1 2 3, CABS.
  cbn [flat_map]. rewrite app_nil_r.
  apply filter_two_blocks; intros x Hx; apply in_map_iff in Hx as (y & <- & Hy);
    unfold YEARS in Hy; simpl in Hy;
    repeat (destruct Hy as [<-|Hy]; [split; reflexivity|]); destruct Hy.
Qed.

Lemma make_union_table_st_ok {A} (get : table -> option (list A)) (mk : list A -> table)
    (name : string) (tables : list string) (con c : db) :
  make_union_table get mk name tables con = Ok c -> make_union_table_st get mk name tables con = (c, None).
Proof.
  unfold make_union_table, make_union_table_st. destruct tables as [|t ts].
  - intros H. now inversion H.
  - destruct (select_union_all get _ _); simpl; intros H; inversion H; reflexivity.
Qed.

Lemma clean_build_unions_st_ok (con c : db) (pairs : list (string * string)) :
  clean_build_unions con pairs = Ok c -> clean_build_unions_st con pairs = (c, None).
Proof.
  unfold clean_build_unions, clean_build_unions_st. cbv zeta.
  destruct (make_union_table _ _ "yellow_trips_clean_all" _ con) as [c1|] eqn:E1; simpl; [|discriminate].
  destruct (make_union_table _ _ "green_trips_clean_all" _ c1) as [c2|] eqn:E2; simpl; [|discriminate].
  intros E3. rewrite (make_union_table_st_ok _ _ _ _ _ _ E1). simpl.
  rewrite (make_union_table_st_ok _ _ _ _ _ _ E2). simpl.
  exact (make_union_table_st_ok _ _ _ _ _ _ E3).
Qed.

Lemma clean_main_ok (con : db) :
  discover_src_tables con <> [] ->
  (forall src dst, In (src, dst) (discover_src_tables con) ->
     exists raw, select_trip_cols con src = Ok raw) ->
  exists con', clean_main con = (con', None)
    /\ (forall src dst, In (src, dst) (discover_src_tables con) ->
          exists raw, select_trip_cols con src = Ok raw
            /\ con' !! dst = Some (TTrips (clean_query raw)))
    /\ con' !! "all_trips_clean_2015_2024"%string
       = Some (TTrips (concat (map (fun p => match select_trip_cols con (fst p) with
                                           | Ok raw => clean_query raw
                                           | Err _ => []
                                           end) (discover_src_tables con))))
    /\ (forall t, ~ In t (map snd (discover_src_tables con)) -> ~ In t union_names_clean ->
          con' !! t = con !! t).
Proof.
  intros Hne Hrd.
  assert (Hcand : forall p, In p (discover_src_tables con) -> In p src_candidates).
  { intros p Hp. rewrite discover_src_tables_filter in Hp. now apply filter_In in Hp. }
  assert (Hnd : List.NoDup (map snd (discover_src_tables con))).
  { rewrite discover_src_tables_filter. apply NoDup_map_filter, src_candidates_nodup. }
  destruct (clean_loop_ok (discover_src_tables con) con [] Hnd) as (con1 & E & H1 & H2).
  { intros p q Hp Hq. apply (src_candidates_facts p (Hcand p Hp)), Hcand, Hq. }
  { intros [s d] Hp. exact (Hrd s d Hp). }
  set (py := fun p : string * string => String.prefix "yellow_" (fst p)).
  set (pg := fun p : string * string => String.prefix "green_" (fst p)).
  assert (Hsplit : map snd (List.filter py (discover_src_tables con))
                   ++ map snd (List.filter pg (discover_src_tables con))
                   = map snd (discover_src_tables con))
    by (rewrite <- map_app; f_equal; apply discover_src_tables_split).
  destruct (three_unions get_trips TTrips "yellow_trips_clean_all" "green_trips_clean_all"
              "all_trips_clean_2015_2024" (map snd (List.filter py (discover_src_tables con)))
              (map snd (List.filter pg (discover_src_tables con))) con1)
    as (con' & E3 & L3 & K3).
  - intros t Ht. rewrite Hsplit in Ht. apply in_map_iff in Ht as (p & <- & Hp).
    destruct (src_candidates_facts p (Hcand p Hp)) as [_ Hu].
    destruct (not_in_union_names (snd p) _ _ _ Hu) as (? & ? & ?).
    destruct (H1 p Hp) as (raw & _ & Hl).
    repeat split; try assumption. exists (TTrips (clean_query raw)), (clean_query raw). now split.
  - rewrite Hsplit. destruct (discover_src_tables con); [congruence|discriminate].
  - exists con'. split; [|split; [|split]].
    + unfold clean_main. rewrite E. simpl app.
      destruct (discover_src_tables con) as [|p0 ps] eqn:Ed; [congruence|].
      apply clean_build_unions_st_ok. exact E3.
    + intros src dst Hp. destruct (H1 (src, dst) Hp) as (raw & Hraw & Hl).
      exists raw. split; [exact Hraw|].
      destruct (src_candidates_facts _ (Hcand _ Hp)) as [_ Hu].
      destruct (not_in_union_names dst _ _ _ Hu) as (? & ? & ?). now rewrite K3.
    + rewrite L3, Hsplit, map_map. do 3 f_equal. apply map_ext_in. intros p Hp.
      destruct (H1 p Hp) as (raw & Hraw & Hl). unfold rows_in. now rewrite Hl, Hraw.
    + intros t Ht Hu. destruct (not_in_union_names t _ _ _ Hu) as (? & ? & ?).
      rewrite K3 by assumption. now apply H2.
Qed.

(** When the year tables clean.py finds are all readable trip tables and
    there is at least one, [main] finishes without error; each [<src>_clean]
    table holds the cleaning query of its source, the all-cabs union holds
    the cleaned tables' rows in discovery order (yellow years, then green
    years), and every other table (the raw ones included) is left as it was. *)
Theorem clean_main_success (con : db) :
  discover_src_tables con <> [] ->
  (forall src dst, In (src, dst) (discover_src_tables con) ->
     exists raw, select_trip_cols con src = Ok raw) ->
  exists con', clean_main con = (con', None)
    /\ (forall src dst, In (src, dst) (discover_src_tables con) ->
          exists raw, select_trip_cols con src = Ok raw
            /\ con' !! dst = Some (TTrips (clean_query raw)))
    /\ con' !! "all_trips_clean_2015_2024"%string
       = Some (TTrips (concat (map (fun p => match select_trip_cols con (fst p) with
                                           | Ok raw => clean_query raw
                                           | Err _ => []
                                           end) (discover_src_tables con))))
    /\ (forall t, ~ In t (map snd (discover_src_tables con)) -> ~ In t union_names_clean ->
          con' !! t = con !! t).
Proof. exact (clean_main_ok con). Qed.

Lemma clean_main_success_witness :
  exists con', clean_main (db_with factors_by_type) = (con', None)
    /\ (forall src dst, In (src, dst) (discover_src_tables (db_with factors_by_type)) ->
          exists raw, select_trip_cols (db_with factors_by_type) src = Ok raw
            /\ con' !! dst = Some (TTrips (clean_query raw)))
    /\ con' !! "all_trips_clean_2015_2024"%string
       = Some (TTrips (concat (map (fun p => match select_trip_cols (db_with factors_by_type) (fst p) with
                                           | Ok raw => clean_query raw
                                           | Err _ => []
                                           end) (discover_src_tables (db_with factors_by_type)))))
    /\ (forall t, ~ In t (map snd (discover_src_tables (db_with factors_by_type))) ->
          ~ In t union_names_clean -> con' !! t = (db_with factors_by_type) !! t).
Proof.
  apply clean_main_success.
  - vm_compute. discriminate.
  - intros src dst Hin. vm_compute in Hin. destruct Hin as [Hp|[]]. inversion Hp; subst.
    eexists. vm_compute. reflexivity.
Defined.

(** When none of the twenty year tables exists, clean.py [main] returns
    without writing anything: union tables left by an earlier run stay. *)
Theorem clean_main_no_sources (con : db) :
  (forall cab y, In cab CABS -> In y YEARS -> con !! (cab ++ "_trips_" ++ pretty y)%string = None) ->
  clean_main con = (con, None).
Proof.
  intros H.
  assert (Hd : discover_src_tables con = []).
  { rewrite discover_src_tables_filter. apply filter_nil_in. intros p Hp.
    unfold src_candidates in Hp. apply in_flat_map in Hp as (cab & Hcab & Hp).
    apply in_map_iff in Hp as (y & <- & Hy). unfold table_exists. simpl fst.
    now rewrite (H cab y Hcab Hy). }
  unfold clean_main. now rewrite Hd.
Qed.

Lemma clean_main_no_sources_witness :
  clean_main (<["all_trips_clean_2015_2024" := TTrips []]> ∅)
  = (<["all_trips_clean_2015_2024" := TTrips []]> ∅, None).
Proof.
  apply clean_main_no_sources. intros cab y Hcab Hy.
  unfold YEARS in Hy. simpl in Hy.
  destruct Hcab as [<-|[<-|[]]]; repeat (destruct Hy as [<-|Hy]; [vm_compute; reflexivity|]); destruct Hy.
Defined.

(** ** transform.py [main] *)

Lemma build_emissions_cte_same (c1 c2 : db) (taxi : string) :
  c1 !! "vehicle_emissions"%string = c2 !! "vehicle_emissions"%string ->
  build_emissions_cte c1 taxi = build_emissions_cte c2 taxi.
Proof. intros H. unfold build_emissions_cte, get_emissions_cols, emission_rows. now rewrite H. Qed.

Lemma build_emissions_cte_ok (con : db) (taxi : string) :
  str_mem "co2_grams_per_mile" (get_emissions_cols con) = true ->
  exists ve, build_emissions_cte con taxi = Ok ve.
Proof.
  intros H. unfold build_emissions_cte. rewrite H. simpl.
  destruct (str_mem "taxi_type" _); eexists; reflexivity.
Qed.

Lemma emissions_cols_exists (con : db) :
  str_mem "co2_grams_per_mile" (get_emissions_cols con) = true ->
  table_exists con "vehicle_emissions" = true.
Proof. unfold get_emissions_cols, table_exists. destruct (con !! _); [reflexivity|discriminate]. Qed.

Lemma select_trip_cols_exists (con : db) (s : string) (base : list trip_row) :
  select_trip_cols con s = Ok base -> table_exists con s = true.
Proof. unfold select_trip_cols, table_exists. destruct (con !! s); [reflexivity|discriminate]. Qed.

Lemma transform_loop_ok (wl : list (string * string * string)) : forall (con : db) created,
  List.NoDup (map wl_dst wl) ->
  (forall w w', In w wl -> In w' wl -> fst (fst w) <> wl_dst w') ->
  (forall w, In w wl -> wl_dst w <> "vehicle_emissions"%string) ->
  str_mem "co2_grams_per_mile" (get_emissions_cols con) = true ->
  (forall w, In w wl -> exists base, select_trip_cols con (fst (fst w)) = Ok base) ->
  exists con', transform_loop con wl created = (con', None, created ++ map wl_dst wl)
    /\ (forall w, In w wl -> exists ve base, build_emissions_cte con (snd w) = Ok ve
          /\ select_trip_cols con (fst (fst w)) = Ok base
          /\ con' !! wl_dst w = Some (TEnriched (transform_query base ve)))
    /\ (forall t, ~ In t (map wl_dst wl) -> con' !! t = con !! t).
Proof.
  induction wl as [|[[s d] tx] rest IH]; intros con created Hnd Hsd Hve Hcol Hrd.
  - exists con. rewrite app_nil_r. split; [reflexivity|]. split; [intros w []|]. auto.
  - inversion Hnd as [|? ? Hnotin Hnd']; subst. unfold wl_dst in Hnotin at 1. simpl in Hnotin.
    assert (Hne : s <> d) by exact (Hsd (s, d, tx) (s, d, tx) (or_introl eq_refl) (or_introl eq_refl)).
    assert (Hdve : d <> "vehicle_emissions"%string) by exact (Hve (s, d, tx) (or_introl eq_refl)).
    destruct (Hrd (s, d, tx) (or_introl eq_refl)) as (base & Hbase). simpl in Hbase.
    destruct (build_emissions_cte_ok con tx Hcol) as (ve & Hcte).
    set (con2 := <[d := TEnriched (transform_query base ve)]> (delete d con)).
    assert (Hve2 : forall c, c !! "vehicle_emissions"%string = con !! "vehicle_emissions"%string ->
                   get_emissions_cols c = get_emissions_cols con)
      by (intros c Hc; unfold get_emissions_cols; now rewrite Hc).
    assert (Hdel : delete d con !! "vehicle_emissions"%string = con !! "vehicle_emissions"%string)
      by (rewrite lookup_delete_ne; congruence).
    assert (Hins : con2 !! "vehicle_emissions"%string = con !! "vehicle_emissions"%string)
      by (unfold con2; rewrite lookup_insert_ne by congruence; exact Hdel).
    assert (Hstep : transform_one_st con s d tx = (con2, None)).
    { unfold transform_one_st. rewrite (emissions_cols_exists _ Hcol), (select_trip_cols_exists _ _ _ Hbase).
      simpl. rewrite (build_emissions_cte_same _ _ _ Hdel), Hcte.
      assert (Hd : select_trip_cols (delete d con) s = Ok base)
        by (unfold select_trip_cols in *; now rewrite lookup_delete_ne by congruence).
      rewrite Hd. cbv zeta. fold con2.
      replace (con2 !! d) with (Some (TEnriched (transform_query base ve)))
        by (unfold con2; now rewrite lookup_insert_eq).
      reflexivity. }
    destruct (IH con2 (created ++ [d])) as (con' & E & H1 & H2).
    + exact Hnd'.
    + intros w w' Hw Hw'. apply Hsd; now right.
    + intros w Hw. apply Hve. now right.
    + now rewrite (Hve2 con2 Hins).
    + intros w Hw. destruct (Hrd w (or_intror Hw)) as (b & Hb). exists b. unfold con2.
      rewrite select_trip_cols_other; [exact Hb|].
      exact (Hsd w (s, d, tx) (or_intror Hw) (or_introl eq_refl)).
    + exists con'. split; [|split].
      * simpl. rewrite Hstep, E. now rewrite <- app_assoc.
      * intros w [<-|Hw].
        -- exists ve, base. split; [exact Hcte|]. split; [exact Hbase|].
           unfold wl_dst. simpl. rewrite (H2 d Hnotin). unfold con2. now rewrite lookup_insert_eq.
        -- destruct (H1 w Hw) as (ve' & b & Hv & Hb & Hl). exists ve', b.
           split; [now rewrite (build_emissions_cte_same _ _ _ Hins) in Hv|]. split; [|exact Hl].
           unfold con2 in Hb. rewrite select_trip_cols_other in Hb; [exact Hb|].
           exact (Hsd w (s, d, tx) (or_intror Hw) (or_introl eq_refl)).
      * intros t Ht. rewrite H2 by (intros Hin; apply Ht; now right).
        unfold con2. rewrite lookup_insert_ne by (intros ->; apply Ht; now left).
        rewrite lookup_delete_ne by (intros ->; apply Ht; now left). reflexivity.
Qed.

Lemma discover_cleaned_tables_filter (con : db) :
  discover_cleaned_tables con = List.filter (fun w => table_exists con (fst (fst w))) cleaned_candidates.
Proof.
  unfold discover_cleaned_tables, cleaned_candidates. generalize YEARS as ys. generalize CABS as cs.
  induction cs as [|c cs IH]; intros ys; [reflexivity|].
  cbn [flat_map]. rewrite List.filter_app, IH. f_equal.
  induction ys as [|y ys IHy]; [reflexivity|]. cbn [flat_map map List.filter fst].
  destruct (table_exists con _); simpl; now rewrite IHy.
Qed.

Lemma cleaned_candidates_nodup : List.NoDup (map wl_dst cleaned_candidates).
Proof.
  apply NoDup_ListNoDup. apply (bool_decide_unpack (NoDup (map wl_dst cleaned_candidates))).
  vm_compute. exact I.
Qed.

Lemma cleaned_candidates_facts :
  forall w, In w cleaned_candidates ->
    (forall w', In w' cleaned_candidates -> fst (fst w) <> wl_dst w')
    /\ wl_dst w <> "vehicle_emissions"%string /\ ~ In (wl_dst w) union_names_transform.
Proof.
  assert (Hb : forallb (fun w => forallb (fun w' => negb (String.eqb (fst (fst w)) (wl_dst w'))) cleaned_candidates
                                 && negb (String.eqb (wl_dst w) "vehicle_emissions")
                                 && negb (str_mem (wl_dst w) union_names_transform)) cleaned_candidates = true)
    by (vm_compute; reflexivity).
  intros w Hw. rewrite forallb_forall in Hb. apply Hb in Hw.
  apply andb_prop in Hw as [Hw Hu]. apply andb_prop in Hw as [Hq Hv].
  split; [|split].
  - intros w' Hw'. rewrite forallb_forall in Hq. specialize (Hq w' Hw').
    apply negb_true_iff, String.eqb_neq in Hq. exact Hq.
  - apply negb_true_iff, String.eqb_neq in Hv. exact Hv.
  - intros Hin. apply negb_true_iff in Hu. unfold str_mem in Hu.
    assert (existsb (String.eqb (wl_dst w)) union_names_transform = true)
      by (apply existsb_exists; exists (wl_dst w); split; [exact Hin|apply String.eqb_refl]).
    congruence.
Qed.

Lemma filter_map_comm {B C} (p : C -> bool) (g : B -> C) (l : list B) :
  List.filter p (map g l) = map g (List.filter (fun x => p (g x)) l).
Proof. induction l as [|x l IH]; simpl; [reflexivity|]. destruct (p (g x)); simpl; now rewrite IH. Qed.

Lemma discover_cleaned_tables_split (con : db) :
  List.filter (String.prefix "yellow_") (map wl_dst (discover_cleaned_tables con))
  ++ List.filter (String.prefix "green_") (map wl_dst (discover_cleaned_tables con))
  = map wl_dst (discover_cleaned_tables con).
Proof.
  rewrite !filter_map_comm, <- map_app. f_equal.
  rewrite discover_cleaned_tables_filter. unfold cleaned_candidates at 1 2 3, CABS.
  cbn [flat_map]. rewrite app_nil_r.
  apply filter_two_blocks; intros x Hx; apply in_map_iff in Hx as (y & <- & Hy);
    unfold YEARS in Hy; simpl in Hy;
    repeat (destruct Hy as [<-|Hy]; [split; reflexivity|]); destruct Hy.
Qed.

Lemma transform_build_unions_st_ok (con c : db) (tables : list string) :
  transform_build_unions con tables = Ok c -> transform_build_unions_st con tables = (c, None).
Proof.
  unfold transform_build_unions, transform_build_unions_st. cbv zeta.
  destruct (make_union_table _ _ "yellow_trips_transformed_all" _ con) as [c1|] eqn:E1; simpl; [|discriminate].
  destruct (make_union_table _ _ "green_trips_transformed_all" _ c1) as [c2|] eqn:E2; simpl; [|discriminate].
  intros E3. rewrite (make_union_table_st_ok _ _ _ _ _ _ E1). simpl.
  rewrite (make_union_table_st_ok _ _ _ _ _ _ E2). simpl.
  exact (make_union_table_st_ok _ _ _ _ _ _ E3).
Qed.

Lemma transform_main_ok (con : db) :
  discover_cleaned_tables con <> [] ->
  str_mem "co2_grams_per_mile" (get_emissions_cols con) = true ->
  (forall s d taxi, In (s, d, taxi) (discover_cleaned_tables con) ->
     exists base, select_trip_cols con s = Ok base) ->
  exists con', transform_main con = (con', None)
    /\ (forall s d taxi, In (s, d, taxi) (discover_cleaned_tables con) ->
          exists ve base, build_emissions_cte con taxi = Ok ve /\ select_trip_cols con s = Ok base
            /\ con' !! d = Some (TEnriched (transform_query base ve)))
    /\ con' !! "all_trips_transformed_2015_2024"%string
       = Some (TEnriched (concat (map (fun w =>
            match build_emissions_cte con (snd w), select_trip_cols con (fst (fst w)) with
            | Ok ve, Ok base => transform_query base ve
            | _, _ => []
            end) (discover_cleaned_tables con))))
    /\ (forall t, ~ In t (map wl_dst (discover_cleaned_tables con)) -> ~ In t union_names_transform ->
          con' !! t = con !! t).
Proof.
  intros Hne Hcol Hrd.
  assert (Hcand : forall w, In w (discover_cleaned_tables con) -> In w cleaned_candidates).
  { intros w Hw. rewrite discover_cleaned_tables_filter in Hw. now apply filter_In in Hw. }
  assert (Hnd : List.NoDup (map wl_dst (discover_cleaned_tables con))).
  { rewrite discover_cleaned_tables_filter. apply NoDup_map_filter, cleaned_candidates_nodup. }
  destruct (transform_loop_ok (discover_cleaned_tables con) con [] Hnd) as (con1 & E & H1 & H2).
  { intros w w' Hw Hw'. apply (cleaned_candidates_facts w (Hcand w Hw)), Hcand, Hw'. }
  { intros w Hw. apply (cleaned_candidates_facts w (Hcand w Hw)). }
  { exact Hcol. }
  { intros [[s d] tx] Hw. exact (Hrd s d tx Hw). }
  set (created := map wl_dst (discover_cleaned_tables con)) in *.
  pose proof (discover_cleaned_tables_split con) as Hsplit. fold created in Hsplit.
  destruct (three_unions get_enriched TEnriched "yellow_trips_transformed_all"
              "green_trips_transformed_all" "all_trips_transformed_2015_2024"
              (List.filter (String.prefix "yellow_") created)
              (List.filter (String.prefix "green_") created) con1)
    as (con' & E3 & L3 & K3).
  - intros t Ht. rewrite Hsplit in Ht. unfold created in Ht. apply in_map_iff in Ht as (w & <- & Hw).
    destruct (cleaned_candidates_facts w (Hcand w Hw)) as (_ & _ & Hu).
    destruct (not_in_union_names (wl_dst w) _ _ _ Hu) as (? & ? & ?).
    destruct (H1 w Hw) as (ve & base & _ & _ & Hl).
    repeat split; try assumption. exists (TEnriched (transform_query base ve)), (transform_query base ve). now split.
  - rewrite Hsplit. unfold created. destruct (discover_cleaned_tables con); [congruence|discriminate].
  - exists con'. split; [|split; [|split]].
    + unfold transform_main. destruct (discover_cleaned_tables con) as [|w0 ws] eqn:Ed; [congruence|].
      rewrite E. simpl app. apply transform_build_unions_st_ok. exact E3.
    + intros s d tx Hw. destruct (H1 (s, d, tx) Hw) as (ve & base & Hv & Hb & Hl).
      exists ve, base. split; [exact Hv|]. split; [exact Hb|].
      destruct (cleaned_candidates_facts _ (Hcand _ Hw)) as (_ & _ & Hu).
      destruct (not_in_union_names d _ _ _ Hu) as (? & ? & ?). now rewrite K3.
    + rewrite L3, Hsplit. unfold created. rewrite map_map. do 3 f_equal. apply map_ext_in. intros w Hw.
      destruct (H1 w Hw) as (ve & base & Hv & Hb & Hl). unfold rows_in. now rewrite Hl, Hv, Hb.
    + intros t Ht Hu. destruct (not_in_union_names t _ _ _ Hu) as (? & ? & ?).
      rewrite K3 by assumption. now apply H2.
Qed.

(** When vehicle_emissions has a co2_grams_per_mile column and every cleaned
    table found is readable, transform.py [main] finishes without error:
    each [<cab>_trips_<year>_transformed] table holds the transform query of
    its cleaned table with its cab's emission factor, the all-cabs union
    holds their rows in worklist order, and every other table is left as it was. *)
Theorem transform_main_success (con : db) :
  discover_cleaned_tables con <> [] ->
  str_mem "co2_grams_per_mile" (get_emissions_cols con) = true ->
  (forall s d taxi, In (s, d, taxi) (discover_cleaned_tables con) ->
     exists base, select_trip_cols con s = Ok base) ->
  exists con', transform_main con = (con', None)
    /\ (forall s d taxi, In (s, d, taxi) (discover_cleaned_tables con) ->
          exists ve base, build_emissions_cte con taxi = Ok ve /\ select_trip_cols con s = Ok base
            /\ con' !! d = Some (TEnriched (transform_query base ve)))
    /\ con' !! "all_trips_transformed_2015_2024"%string
       = Some (TEnriched (concat (map (fun w =>
            match build_emissions_cte con (snd w), select_trip_cols con (fst (fst w)) with
            | Ok ve, Ok base => transform_query base ve
            | _, _ => []
            end) (discover_cleaned_tables con))))
    /\ (forall t, ~ In t (map wl_dst (discover_cleaned_tables con)) -> ~ In t union_names_transform ->
          con' !! t = con !! t).
Proof. exact (transform_main_ok con). Qed.

Lemma transform_main_success_witness :
  exists con', transform_main (db_with factors_by_type) = (con', None)
    /\ (forall s d taxi, In (s, d, taxi) (discover_cleaned_tables (db_with factors_by_type)) ->
          exists ve base, build_emissions_cte (db_with factors_by_type) taxi = Ok ve
            /\ select_trip_cols (db_with factors_by_type) s = Ok base
            /\ con' !! d = Some (TEnriched (transform_query base ve)))
    /\ con' !! "all_trips_transformed_2015_2024"%string
       = Some (TEnriched (concat (map (fun w =>
            match build_emissions_cte (db_with factors_by_type) (snd w),
                  select_trip_cols (db_with factors_by_type) (fst (fst w)) with
            | Ok ve, Ok base => transform_query base ve
            | _, _ => []
            end) (discover_cleaned_tables (db_with factors_by_type)))))
    /\ (forall t, ~ In t (map wl_dst (discover_cleaned_tables (db_with factors_by_type))) ->
          ~ In t union_names_transform -> con' !! t = (db_with factors_by_type) !! t).
Proof.
  apply transform_main_success.
  - vm_compute. discriminate.
  - vm_compute. reflexivity.
  - intros s d tx Hin. vm_compute in Hin. destruct Hin as [Hp|[]]. inversion Hp; subst.
    eexists. vm_compute. reflexivity.
Defined.

(** Without a vehicle_emissions table, transform.py [main] stops at the
    first cleaned table with the missing-table error and changes nothing:
    the check runs before the first DROP. *)
Theorem transform_main_no_emissions (con : db) :
  con !! "vehicle_emissions"%string = None ->
  discover_cleaned_tables con <> [] ->
  transform_main con = (con, Some (ETableMissing "vehicle_emissions")).
Proof.
  intros Hve Hne. unfold transform_main.
  destruct (discover_cleaned_tables con) as [|[[s d] tx] ws]; [congruence|].
  simpl transform_loop. unfold transform_one_st, table_exists at 1. now rewrite Hve.
Qed.

Lemma transform_main_no_emissions_witness :
  transform_main (delete "vehicle_emissions"%string (db_with factors_by_type))
  = (delete "vehicle_emissions"%string (db_with factors_by_type), Some (ETableMissing "vehicle_emissions")).
Proof.
  apply transform_main_no_emissions; [vm_compute; reflexivity|vm_compute; discriminate].
Defined.

(** When vehicle_emissions exists but has no co2_grams_per_mile column,
    transform.py [main] fails on the first cleaned table it finds, after
    that table's DROP: the one change it makes is to delete the first
    year's transformed table. *)
Theorem transform_main_no_co2_column (con : db) (s d taxi : string) rest :
  discover_cleaned_tables con = (s, d, taxi) :: rest ->
  con !! "vehicle_emissions"%string <> None ->
  str_mem "co2_grams_per_mile" (get_emissions_cols con) = false ->
  transform_main con
  = (delete d con, Some (EColumnMissing "vehicle_emissions must have column 'co2_grams_per_mile'.")).
Proof.
  intros Hd Hve Hcol.
  assert (Hin : In (s, d, taxi) (discover_cleaned_tables con)) by (rewrite Hd; now left).
  apply discover_cleaned_tables_iff in Hin as (y & Hcab & Hy & -> & -> & Hs).
  assert (Hne : ((taxi ++ "_trips_" ++ pretty y ++ "_transformed")%string <> "vehicle_emissions"%string)).
  { destruct Hcab as [<-|[<-|[]]]; discriminate. }
  unfold transform_main. rewrite Hd. simpl transform_loop. unfold transform_one_st.
  apply table_exists_true in Hve, Hs. rewrite Hve, Hs. simpl.
  rewrite (build_emissions_cte_same _ con _ (lookup_delete_ne _ _ _ Hne)).
  unfold build_emissions_cte. now rewrite Hcol.
Qed.

Lemma transform_main_no_co2_column_witness :
  transform_main (<["vehicle_emissions" := TEmissions ["taxi_type"] []]> (db_with factors_by_type))
  = (delete "yellow_trips_2015_transformed"%string
       (<["vehicle_emissions" := TEmissions ["taxi_type"] []]> (db_with factors_by_type)),
     Some (EColumnMissing "vehicle_emissions must have column 'co2_grams_per_mile'.")).
Proof.
  apply (transform_main_no_co2_column _ "yellow_trips_2015_clean" _ "yellow" []);
    vm_compute; [reflexivity|discriminate|reflexivity].
Defined.

(** ** load.py *)

Section LoadMonths.
Variable fetch : string -> option (list parquet_row).
Variables (cab table : string) (year : Z).

Let month_rows (m : Z) : list trip_row :=
  map (load_row cab) (default [] (fetch (parquet_url cab year m))).

Lemma load_months_append (months : list Z) : forall (con : db) old,
  con !! table = Some (TTrips old) ->
  (forall m, In m months -> fetch (parquet_url cab year m) <> None) ->
  load_months fetch cab year table months true con
  = (<[table := TTrips (old ++ concat (map month_rows months))]> con, None).
Proof.
  induction months as [|m ms IH]; intros con old Hold Hf; simpl.
  - rewrite app_nil_r. now rewrite insert_id.
  - destruct (fetch (parquet_url cab year m)) as [prows|] eqn:Em;
      [|exfalso; exact (Hf m (or_introl eq_refl) Em)].
    rewrite Hold. rewrite (IH _ (old ++ map (load_row cab) prows)).
    + rewrite insert_insert_eq. unfold month_rows at 2. rewrite Em. simpl.
      now rewrite <- app_assoc.
    + now rewrite lookup_insert_eq.
    + intros m' Hm'. apply Hf. now right.
Qed.

Lemma load_months_fresh (m : Z) (ms : list Z) (con : db) :
  (forall m', In m' (m :: ms) -> fetch (parquet_url cab year m') <> None) ->
  load_months fetch cab year table (m :: ms) false con
  = (<[table := TTrips (concat (map month_rows (m :: ms)))]> con, None).
Proof.
  intros Hf. simpl.
  destruct (fetch (parquet_url cab year m)) as [prows|] eqn:Em;
    [|exfalso; exact (Hf m (or_introl eq_refl) Em)].
  rewrite (load_months_append ms _ (map (load_row cab) prows)).
  - rewrite insert_insert_eq. unfold month_rows at 2. now rewrite Em.
  - now rewrite lookup_insert_eq.
  - intros m' Hm'. apply Hf. now right.
Qed.

Variable k : Z.
Hypothesis Hk : fetch (parquet_url cab year k) = None.

Lemma load_months_fail_append (months : list Z) : forall (con : db) old,
  StronglySorted Z.lt months -> In k months ->
  (forall m, In m months -> m < k -> fetch (parquet_url cab year m) <> None) ->
  con !! table = Some (TTrips old) ->
  load_months fetch cab year table months true con
  = (<[table := TTrips (old ++ concat (map month_rows (List.filter (fun m => m <? k) months)))]> con,
     Some (ESqlError ("IO Error: " ++ parquet_url cab year k)%string)).
Proof.
  induction months as [|m ms IH]; intros con old Hs Hin Hf Hold; [destruct Hin|].
  apply StronglySorted_inv in Hs as [Hs Hall]. rewrite List.Forall_forall in Hall.
  destruct (Z.lt_trichotomy m k) as [Hlt|[->|Hgt]].
  - destruct Hin as [->|Hin]; [lia|].
    simpl. destruct (fetch (parquet_url cab year m)) as [prows|] eqn:Em;
      [|exfalso; exact (Hf m (or_introl eq_refl) Hlt Em)].
    rewrite Hold. rewrite (IH _ (old ++ map (load_row cab) prows) Hs Hin).
    + rewrite insert_insert_eq. rewrite (proj2 (Z.ltb_lt m k) Hlt). simpl.
      unfold month_rows at 2. rewrite Em. simpl. now rewrite <- app_assoc.
    + intros m' Hm' Hlt'. apply Hf; [now right|exact Hlt'].
    + now rewrite lookup_insert_eq.
  - simpl. rewrite Hk, Z.ltb_irrefl.
    rewrite filter_nil_in by (intros x Hx; apply Z.ltb_ge; specialize (Hall x Hx); lia).
    simpl. rewrite app_nil_r. now rewrite insert_id.
  - destruct Hin as [->|Hin]; [lia|]. specialize (Hall k Hin). lia.
Qed.

Lemma load_months_fail_fresh (months : list Z) (con : db) :
  StronglySorted Z.lt months -> In k months ->
  (forall m, In m months -> m < k -> fetch (parquet_url cab year m) <> None) ->
  load_months fetch cab year table months false con
  = (match List.filter (fun m => m <? k) months with
     | [] => con
     | pre => <[table := TTrips (concat (map month_rows pre))]> con
     end,
     Some (ESqlError ("IO Error: " ++ parquet_url cab year k)%string)).
Proof.
  destruct months as [|m ms]; intros Hs Hin Hf; [destruct Hin|].
  apply StronglySorted_inv in Hs as [Hs Hall]. rewrite List.Forall_forall in Hall.
  destruct (Z.lt_trichotomy m k) as [Hlt|[->|Hgt]].
  - destruct Hin as [->|Hin]; [lia|].
    simpl. destruct (fetch (parquet_url cab year m)) as [prows|] eqn:Em;
      [|exfalso; exact (Hf m (or_introl eq_refl) Hlt Em)].
    rewrite (load_months_fail_append ms _ (map (load_row cab) prows) Hs Hin).
    + rewrite insert_insert_eq. rewrite (proj2 (Z.ltb_lt m k) Hlt). simpl.
      unfold month_rows at 2. now rewrite Em.
    + intros m' Hm' Hlt'. apply Hf; [now right|exact Hlt'].
    + now rewrite lookup_insert_eq.
  - simpl. rewrite Hk, Z.ltb_irrefl.
    now rewrite filter_nil_in by (intros x Hx; apply Z.ltb_ge; specialize (Hall x Hx); lia).
  - destruct Hin as [->|Hin]; [lia|]. specialize (Hall k Hin). lia.
Qed.
End LoadMonths.

Lemma MONTHS_sorted : StronglySorted Z.lt MONTHS.
Proof.
  unfold MONTHS. simpl. repeat constructor; repeat (apply Forall_cons; [lia|]); apply Forall_nil.
Qed.

Lemma str_mem_cabs (cab : string) : In cab CABS -> str_mem cab ["yellow"; "green"]%string = true.
Proof. intros [<-|[<-|[]]]; reflexivity. Qed.

Lemma load_year_cab_ok fetch (con : db) (year : Z) (cab : string) :
  In cab CABS ->
  (forall m, In m MONTHS -> fetch (parquet_url cab year m) <> None) ->
  let table := (cab ++ "_trips_" ++ pretty year)%string in
  let rows := concat (map (fun m => map (load_row cab) (default [] (fetch (parquet_url cab year m)))) MONTHS) in
  load_year_cab fetch con year cab
  = (<[table := TTrips rows]> (delete table con), Ok (table, Z.of_nat (length rows)))
  /\ Forall (fun r => cab_type r = Some cab) rows.
Proof.
  intros Hcab Hf table rows. split.
  - unfold load_year_cab. rewrite (str_mem_cabs cab Hcab). simpl negb. cbv zeta.
    fold table. unfold MONTHS at 1. simpl seq. simpl map at 1.
    rewrite load_months_fresh by exact Hf. simpl.
    unfold count_rows. rewrite lookup_insert_eq. reflexivity.
  - apply List.Forall_forall. intros r Hr. unfold rows in Hr.
    apply in_concat in Hr as (l & Hl & Hr). apply in_map_iff in Hl as (m & <- & _).
    apply in_map_iff in Hr as (p & <- & _). reflexivity.
Qed.

(** When every monthly file of the year downloads, [load_year_cab] replaces
    the year table by the twelve months' rows in month order, each tagged
    with the cab, returns the table name and its row count, and touches no
    other table. *)
Theorem load_year_cab_success fetch (con : db) (year : Z) (cab : string) :
  In cab CABS ->
  (forall m, In m MONTHS -> fetch (parquet_url cab year m) <> None) ->
  let table := (cab ++ "_trips_" ++ pretty year)%string in
  let rows := concat (map (fun m => map (load_row cab) (default [] (fetch (parquet_url cab year m)))) MONTHS) in
  load_year_cab fetch con year cab
  = (<[table := TTrips rows]> (delete table con), Ok (table, Z.of_nat (length rows)))
  /\ Forall (fun r => cab_type r = Some cab) rows.
Proof. exact (load_year_cab_ok fetch con year cab). Qed.

Lemma load_year_cab_success_witness :
  let fetch := fun _ : string => Some [mkParquet (Some 1) (Some ts_a) (Some ts_b) (Some 1) (Some 2%Q)] in
  let table := ("green" ++ "_trips_" ++ pretty 2015)%string in
  let rows := concat (map (fun m => map (load_row "green") (default [] (fetch (parquet_url "green" 2015 m)))) MONTHS) in
  load_year_cab fetch ∅ 2015 "green"
  = (<[table := TTrips rows]> (delete table ∅), Ok (table, Z.of_nat (length rows)))
  /\ Forall (fun r => cab_type r = Some "green"%string) rows.
Proof.
  intros fetch. apply (load_year_cab_success fetch ∅ 2015 "green").
  - right. now left.
  - intros m _. discriminate.
Defined.

(** When the download of month [k] fails and the earlier months succeed,
    [load_year_cab] raises with that month's URL, leaving the year table
    with the months before [k] (no table at all when [k] is January) and
    every other table as it was. *)
Theorem load_year_cab_month_fails fetch (con : db) (year : Z) (cab : string) (k : Z) :
  In cab CABS -> In k MONTHS ->
  fetch (parquet_url cab year k) = None ->
  (forall m, In m MONTHS -> m < k -> fetch (parquet_url cab year m) <> None) ->
  let table := (cab ++ "_trips_" ++ pretty year)%string in
  load_year_cab fetch con year cab
  = (if k =? 1 then delete table con
     else <[table := TTrips (concat (map (fun m => map (load_row cab) (default [] (fetch (parquet_url cab year m))))
                                        (List.filter (fun m => m <? k) MONTHS)))]> (delete table con),
     Err (ESqlError ("IO Error: " ++ parquet_url cab year k)%string)).
Proof.
  intros Hcab Hin Hk Hf table.
  unfold load_year_cab. rewrite (str_mem_cabs cab Hcab). simpl negb. cbv zeta. fold table.
  rewrite (load_months_fail_fresh fetch cab table year k Hk MONTHS _ MONTHS_sorted Hin Hf).
  destruct (k =? 1) eqn:E1.
  - apply Z.eqb_eq in E1. subst k. reflexivity.
  - apply Z.eqb_neq in E1.
    assert (Hk1 : 1 < k) by (unfold MONTHS in Hin; apply in_map_iff in Hin as (n & <- & Hn);
                             apply in_seq in Hn; lia).
    destruct (List.filter (fun m => m <? k) MONTHS) eqn:Ef; [|reflexivity].
    exfalso. assert (H1 : In 1 (List.filter (fun m => m <? k) MONTHS))
      by (apply filter_In; split; [now left|now apply Z.ltb_lt]).
    rewrite Ef in H1. destruct H1.
Qed.

Lemma load_year_cab_month_fails_witness :
  let fetch := fun url : string =>
    if String.eqb url (parquet_url "yellow" 2016 3) then None
    else Some [mkParquet (Some 2) (Some ts_a) (Some ts_b) (Some 1) (Some 3%Q)] in
  let table := ("yellow" ++ "_trips_" ++ pretty 2016)%string in
  load_year_cab fetch ∅ 2016 "yellow"
  = (if 3 =? 1 then delete table ∅
     else <[table := TTrips (concat (map (fun m => map (load_row "yellow") (default [] (fetch (parquet_url "yellow" 2016 m))))
                                        (List.filter (fun m => m <? 3) MONTHS)))]> (delete table ∅),
     Err (ESqlError ("IO Error: " ++ parquet_url "yellow" 2016 3)%string)).
Proof.
  intros fetch. apply (load_year_cab_month_fails fetch ∅ 2016 "yellow" 3).
  - now left.
  - vm_compute. tauto.
  - vm_compute. reflexivity.
  - intros m Hm Hlt. unfold MONTHS in Hm. simpl in Hm.
    repeat (destruct Hm as [<-|Hm]; [vm_compute; discriminate || lia|]); destruct Hm.
Defined.

Lemma string_app_cancel_l (p a b : string) : (p ++ a)%string = (p ++ b)%string -> a = b.
Proof. induction p as [|c p IH]; simpl; [auto|]. intros H. injection H. exact IH. Qed.

Lemma year_table_inj (cab : string) (y y' : Z) :
  (cab ++ "_trips_" ++ pretty y)%string = (cab ++ "_trips_" ++ pretty y')%string -> y = y'.
Proof.
  intros H. apply string_app_cancel_l in H. apply (string_app_cancel_l "_trips_") in H.
  exact (inj pretty _ _ H).
Qed.

Lemma load_years_ok fetch (cab : string) (years : list Z) : forall (con : db) total,
  In cab CABS -> List.NoDup years ->
  (forall y m, In y years -> In m MONTHS -> fetch (parquet_url cab y m) <> None) ->
  exists con' total', load_years fetch cab years total con = (con', Ok total')
    /\ (forall y, In y years -> con' !! (cab ++ "_trips_" ++ pretty y)%string
          = Some (TTrips (concat (map (fun m => map (load_row cab) (default [] (fetch (parquet_url cab y m)))) MONTHS))))
    /\ (forall t, (forall y, In y years -> t <> (cab ++ "_trips_" ++ pretty y)%string) -> con' !! t = con !! t).
Proof.
  induction years as [|y ys IH]; intros con total Hcab Hnd Hf.
  - exists con, total. split; [reflexivity|]. split; [intros y []|auto].
  - inversion Hnd as [|? ? Hy Hnd']; subst.
    destruct (load_year_cab_ok fetch con y cab Hcab (fun m Hm => Hf y m (or_introl eq_refl) Hm)) as [E _].
    set (tn := (cab ++ "_trips_" ++ pretty y)%string) in *.
    destruct (IH (<[tn := TTrips (concat (map (fun m => map (load_row cab)
                  (default [] (fetch (parquet_url cab y m)))) MONTHS))]> (delete tn con))
                 (total + Z.of_nat (length (concat (map (fun m => map (load_row cab)
                  (default [] (fetch (parquet_url cab y m)))) MONTHS)))) Hcab Hnd')
      as (con' & total' & E' & H1 & H2).
    { intros y' m Hy' Hm. apply Hf; [now right|exact Hm]. }
    exists con', total'. split; [|split].
    + simpl. rewrite E. exact E'.
    + intros y' [<-|Hy'].
      * rewrite H2. { unfold tn. now rewrite lookup_insert_eq. }
        intros y'' Hy'' Heq. apply year_table_inj in Heq. subst. contradiction.
      * now apply H1.
    + intros t Ht. rewrite H2 by (intros y' Hy'; apply Ht; now right).
      assert (t <> tn) by (apply Ht; now left).
      rewrite lookup_insert_ne by congruence. now rewrite lookup_delete_ne by congruence.
Qed.

Lemma YEARS_nodup : List.NoDup YEARS.
Proof. apply NoDup_ListNoDup. apply (bool_decide_unpack (NoDup YEARS)). vm_compute. exact I. Qed.

Lemma year_table_cab_ne (y y' : Z) :
  ("yellow" ++ "_trips_" ++ pretty y)%string <> ("green" ++ "_trips_" ++ pretty y')%string.
Proof. discriminate. Qed.

Lemma load_parquet_files_ok fetch (cols : list string) (erows : list emission_row) (con : db) :
  (forall cab y m, In cab CABS -> In y YEARS -> In m MONTHS -> fetch (parquet_url cab y m) <> None) ->
  exists con', load_parquet_files fetch (Some (cols, erows)) con = (con', None)
    /\ (forall cab y, In cab CABS -> In y YEARS ->
          con' !! (cab ++ "_trips_" ++ pretty y)%string
          = Some (TTrips (concat (map (fun m => map (load_row cab) (default [] (fetch (parquet_url cab y m)))) MONTHS))))
    /\ con' !! "vehicle_emissions"%string = Some (TEmissions cols erows)
    /\ discover_src_tables con' = src_candidates
    /\ (forall t, (forall cab y, In cab CABS -> In y YEARS -> t <> (cab ++ "_trips_" ++ pretty y)%string) ->
          t <> "vehicle_emissions"%string -> con' !! t = con !! t).
Proof.
  intros Hf.
  assert (Hy : In "yellow"%string CABS) by now left.
  assert (Hg : In "green"%string CABS) by (right; now left).
  destruct (load_years_ok fetch "yellow" YEARS con 0 Hy YEARS_nodup) as (con1 & t1 & E1 & Y1 & K1).
  { intros y m Hy' Hm. now apply Hf. }
  destruct (load_years_ok fetch "green" YEARS con1 0 Hg YEARS_nodup) as (con2 & t2 & E2 & G2 & K2).
  { intros y m Hy' Hm. now apply Hf. }
  set (con' := <["vehicle_emissions" := TEmissions cols erows]> (delete "vehicle_emissions"%string con2)).
  assert (Hyear : forall cab y, In cab CABS -> In y YEARS ->
            con' !! (cab ++ "_trips_" ++ pretty y)%string
            = Some (TTrips (concat (map (fun m => map (load_row cab) (default [] (fetch (parquet_url cab y m)))) MONTHS)))).
  { intros cab y Hcab Hy'. unfold con'.
    assert (Hne : (cab ++ "_trips_" ++ pretty y)%string <> "vehicle_emissions"%string)
      by (destruct Hcab as [<-|[<-|[]]]; discriminate).
    rewrite lookup_insert_ne by congruence. rewrite lookup_delete_ne by congruence.
    destruct Hcab as [<-|[<-|[]]].
    - rewrite K2 by (intros y' _; apply year_table_cab_ne). now apply Y1.
    - now apply G2. }
  exists con'. split; [|split; [exact Hyear|split; [|split]]].
  - unfold load_parquet_files. now rewrite E1, E2.
  - unfold con'. now rewrite lookup_insert_eq.
  - rewrite discover_src_tables_filter. apply filter_id_in. intros p Hp.
    unfold src_candidates in Hp. apply in_flat_map in Hp as (cab & Hcab & Hp).
    apply in_map_iff in Hp as (y & <- & Hy'). unfold table_exists. simpl fst.
    now rewrite (Hyear cab y Hcab Hy').
  - intros t Ht Hve. unfold con'.
    rewrite lookup_insert_ne by congruence. rewrite lookup_delete_ne by congruence.
    rewrite K2 by (intros y Hy'; apply (Ht "green"%string y Hg Hy')).
    apply K1. intros y Hy'. apply (Ht "yellow"%string y Hy Hy').
Qed.

(** When every monthly file downloads and the CSV is present,
    [load_parquet_files] finishes without error: each of the twenty year
    tables holds its twelve months, vehicle_emissions holds the CSV, every
    other table is left as it was, and clean.py then discovers all twenty
    year tables. *)
Theorem load_parquet_files_success fetch (cols : list string) (erows : list emission_row) (con : db) :
  (forall cab y m, In cab CABS -> In y YEARS -> In m MONTHS -> fetch (parquet_url cab y m) <> None) ->
  exists con', load_parquet_files fetch (Some (cols, erows)) con = (con', None)
    /\ (forall cab y, In cab CABS -> In y YEARS ->
          con' !! (cab ++ "_trips_" ++ pretty y)%string
          = Some (TTrips (concat (map (fun m => map (load_row cab) (default [] (fetch (parquet_url cab y m)))) MONTHS))))
    /\ con' !! "vehicle_emissions"%string = Some (TEmissions cols erows)
    /\ discover_src_tables con' = src_candidates
    /\ (forall t, (forall cab y, In cab CABS -> In y YEARS -> t <> (cab ++ "_trips_" ++ pretty y)%string) ->
          t <> "vehicle_emissions"%string -> con' !! t = con !! t).
Proof. exact (load_parquet_files_ok fetch cols erows con). Qed.

Lemma load_parquet_files_success_witness :
  let fetch := fun _ : string => Some [mkParquet (Some 1) (Some ts_a) (Some ts_b) (Some 1) (Some 2%Q)] in
  exists con', load_parquet_files fetch (Some (["taxi_type"; "co2_grams_per_mile"]%string, [])) ∅ = (con', None)
    /\ (forall cab y, In cab CABS -> In y YEARS ->
          con' !! (cab ++ "_trips_" ++ pretty y)%string
          = Some (TTrips (concat (map (fun m => map (load_row cab) (default [] (fetch (parquet_url cab y m)))) MONTHS))))
    /\ con' !! "vehicle_emissions"%string = Some (TEmissions ["taxi_type"; "co2_grams_per_mile"]%string [])
    /\ discover_src_tables con' = src_candidates
    /\ (forall t, (forall cab y, In cab CABS -> In y YEARS -> t <> (cab ++ "_trips_" ++ pretty y)%string) ->
          t <> "vehicle_emissions"%string -> con' !! t = (∅ : db) !! t).
Proof.
  intros fetch. apply load_parquet_files_success. intros cab y m _ _ _. discriminate.
Defined.

Lemma str_app_assoc (a b c : string) : ((a ++ b) ++ c)%string = (a ++ (b ++ c))%string.
Proof.
  induction a as [|x a IH]; [reflexivity|].
  change (String x ((a ++ b) ++ c) = String x (a ++ (b ++ c)))%string. now rewrite IH.
Qed.

(** The three scripts run in order (load.py, clean.py, transform.py) on any
    database, when every monthly file downloads and the CSV has a
    co2_grams_per_mile column: none of them raises, and each year's
    transformed table holds the transform query, with its cab's factor, of
    the cleaning query of the rows loaded for that year. *)
Theorem pipeline_success fetch (cols : list string) (erows : list emission_row) (con : db) :
  (forall cab y m, In cab CABS -> In y YEARS -> In m MONTHS -> fetch (parquet_url cab y m) <> None) ->
  str_mem "co2_grams_per_mile" (map lower cols) = true ->
  exists con1 con2 con3,
    load_parquet_files fetch (Some (cols, erows)) con = (con1, None)
    /\ clean_main con1 = (con2, None)
    /\ transform_main con2 = (con3, None)
    /\ forall cab y, In cab CABS -> In y YEARS ->
         exists ve, build_emissions_cte con1 cab = Ok ve
           /\ con3 !! (cab ++ "_trips_" ++ pretty y ++ "_transformed")%string
              = Some (TEnriched (transform_query
                  (clean_query (concat (map (fun m => map (load_row cab)
                     (default [] (fetch (parquet_url cab y m)))) MONTHS))) ve)).
Proof.
  intros Hf Hcol.
  destruct (load_parquet_files_ok fetch cols erows con Hf) as (con1 & E1 & Y1 & V1 & D1 & _).
  destruct (clean_main_ok con1) as (con2 & E2 & C2 & _ & K2).
  { rewrite D1. discriminate. }
  { intros src dst Hin. rewrite D1 in Hin. unfold src_candidates in Hin.
    apply in_flat_map in Hin as (cab & Hcab & Hin). apply in_map_iff in Hin as (y & Hp & Hy).
    inversion Hp; subst. eexists. unfold select_trip_cols. now rewrite (Y1 cab y Hcab Hy). }
  assert (V2 : con2 !! "vehicle_emissions"%string = Some (TEmissions cols erows)).
  { rewrite K2; [exact V1| |].
    - rewrite D1. vm_compute. intuition discriminate.
    - vm_compute. intuition discriminate. }
  assert (Hcte : forall cab, build_emissions_cte con2 cab = build_emissions_cte con1 cab)
    by (intros cab; apply build_emissions_cte_same; now rewrite V1, V2).
  assert (Hcl : forall cab y, In cab CABS -> In y YEARS ->
            con2 !! (cab ++ "_trips_" ++ pretty y ++ "_clean")%string
            = Some (TTrips (clean_query (concat (map (fun m => map (load_row cab)
                 (default [] (fetch (parquet_url cab y m)))) MONTHS))))).
  { intros cab y Hcab Hy.
    assert (Hin : In ((cab ++ "_trips_" ++ pretty y)%string, (cab ++ "_trips_" ++ pretty y ++ "_clean")%string)
                     (discover_src_tables con1)).
    { apply discover_src_tables_iff. exists cab, y. repeat split; auto.
      - now rewrite !str_app_assoc.
      - now rewrite (Y1 cab y Hcab Hy). }
    destruct (C2 _ _ Hin) as (raw & Hraw & Hl). rewrite Hl.
    unfold select_trip_cols in Hraw. rewrite (Y1 cab y Hcab Hy) in Hraw. now inversion Hraw. }
  destruct (transform_main_ok con2) as (con3 & E3 & T3 & _ & _).
  - intros Hnil. assert (Hin : In ("yellow_trips_2015_clean", "yellow_trips_2015_transformed", "yellow")%string
                                  (discover_cleaned_tables con2)).
    { apply discover_cleaned_tables_iff. exists 2015. repeat split.
      - now left.
      - vm_compute. now left.
      - replace "yellow_trips_2015_clean"%string with ("yellow" ++ "_trips_" ++ pretty 2015 ++ "_clean")%string
          by (vm_compute; reflexivity).
        rewrite (Hcl "yellow"%string 2015 (or_introl eq_refl)) by (vm_compute; now left). discriminate. }
    rewrite Hnil in Hin. destruct Hin.
  - unfold get_emissions_cols. now rewrite V2.
  - intros s d tx Hin. apply discover_cleaned_tables_iff in Hin as (y & Hcab & Hy & -> & -> & _).
    eexists. unfold select_trip_cols. now rewrite (Hcl tx y Hcab Hy).
  - exists con1, con2, con3. split; [exact E1|]. split; [exact E2|]. split; [exact E3|].
    intros cab y Hcab Hy.
    assert (Hin : In ((cab ++ "_trips_" ++ pretty y ++ "_clean")%string,
                      (cab ++ "_trips_" ++ pretty y ++ "_transformed")%string, cab)
                     (discover_cleaned_tables con2)).
    { apply discover_cleaned_tables_iff. exists y. repeat split; auto.
      now rewrite (Hcl cab y Hcab Hy). }
    destruct (T3 _ _ _ Hin) as (ve & base & Hv & Hb & Hl).
    exists ve. split; [now rewrite <- Hcte|]. rewrite Hl.
    unfold select_trip_cols in Hb. rewrite (Hcl cab y Hcab Hy) in Hb. now inversion Hb.
Qed.

Lemma pipeline_success_witness :
  let fetch := fun _ : string => Some [mkParquet (Some 1) (Some ts_a) (Some ts_b) (Some 1) (Some 2%Q)] in
  exists con1 con2 con3,
    load_parquet_files fetch (Some (["taxi_type"; "co2_grams_per_mile"]%string, [])) ∅ = (con1, None)
    /\ clean_main con1 = (con2, None)
    /\ transform_main con2 = (con3, None)
    /\ forall cab y, In cab CABS -> In y YEARS ->
         exists ve, build_emissions_cte con1 cab = Ok ve
           /\ con3 !! (cab ++ "_trips_" ++ pretty y ++ "_transformed")%string
              = Some (TEnriched (transform_query
                  (clean_query (concat (map (fun m => map (load_row cab)
                     (default [] (fetch (parquet_url cab y m)))) MONTHS))) ve)).
Proof.
  intros fetch. apply pipeline_success.
  - intros cab y m _ _ _. discriminate.
  - vm_compute. reflexivity.
Defined.
